(** * Multiagent-RL: the Pac-Man agents of [pacman/agents.py]

    A shallow embedding of the adapter agents (environment side) and of the
    controller agents (decision side), with the properties of the design
    document stated over it.

    Conventions of the embedding.
    - A Python method that can raise is a function into [Result]; a method
      that mutates [self] or a module global threads an explicit state and
      keeps every mutation done before an exception was raised, as Python
      does.
    - The [random] module is a stream of raw draws with a cursor; a draw for
      a range of [w] values is the raw draw modulo [w], so that every value
      of the range can occur and nothing is assumed about its distribution.
    - Scores are Python integers ([Z]); the Python floats of the learning
      rate schedule are idealised as exact rationals ([Q]), so rounding to
      binary64 is not part of the model.
    - Dictionaries are [gmap]s, Python lists are lists; a method that
      changes a list it was given returns the list as its caller finds it.
    - The source is Python 2: an ordering comparison with [None] puts
      [None] below every number.
    - A [while] loop runs on fuel, and running out of fuel is kept apart
      from every result of the method. *)

From Stdlib Require Import ZArith QArith Lia.
From stdpp Require Import gmap strings list fin_maps.

Local Open Scope Z_scope.

(** ** Python values shared by both sides *)

Module Py.

(** The exceptions the modelled code can raise. *)
Inductive PyError : Type :=
| ValueError (msg : string)
| AttributeError (attr : string)
| NotImplementedError (msg : string)
| KeyError (key : string)
| IndexError (msg : string)
| ZeroDivisionError (msg : string).

Inductive Result (A : Type) : Type :=
| Return (a : A)
| Raise (e : PyError).

Arguments Return {A} a.
Arguments Raise {A} e.

(** [berkeley.game.Directions]. *)
Inductive Direction : Type := NORTH | SOUTH | EAST | WEST | STOP.

#[global] Instance Direction_eq_dec : EqDecision Direction.
Proof. solve_decision. Defined.

(** [x in l] on a Python list. *)
Definition py_in (x : Direction) (l : list Direction) : bool :=
  existsb (fun y => bool_decide (x = y)) l.

(** [l == []] on a Python list. *)
Definition is_empty_list {A} (l : list A) : bool :=
  match l with [] => true | _ :: _ => false end.

(** [len(l) > 0]. *)
Definition len_positive {A} (l : list A) : bool :=
  negb (is_empty_list l).

(** A method over the mutable state [W]: a result or an exception, and the
    state left behind in either case. *)
Definition Method (W A : Type) : Type := W -> Result A * W.

Definition ret {W A} (a : A) : Method W A := fun w => (Return a, w).

Definition raise {W A} (e : PyError) : Method W A := fun w => (Raise e, w).

Definition bind {W A B} (c : Method W A) (k : A -> Method W B)
  : Method W B :=
  fun w =>
    match c w with
    | (Return a, w') => k a w'
    | (Raise e, w') => (Raise e, w')
    end.

End Py.
Export Py.

Notation "x <- c ;; k" := (bind c (fun x => k))
  (at level 100, c at next level, right associativity).
Notation "c ;;; k" := (bind c (fun _ => k))
  (at level 100, right associativity).

(** ** The [random] module *)

Module Random.

(** The hidden generator: the raw draws still to come, and how many were
    consumed. *)
Record RandomState : Type := mkRandom {
  draws : nat -> Z;
  cursor : nat
}.

(** A value below [width], for [width > 0]. *)
Definition randbelow (width : Z) (g : RandomState) : Z * RandomState :=
  (draws g (cursor g) mod width, mkRandom (draws g) (S (cursor g))).

(** [random.randrange(start, stop)]. *)
Definition randrange (start stop : Z) (g : RandomState)
  : Result Z * RandomState :=
  let width := stop - start in
  if 0 <? width then
    let '(r, g') := randbelow width g in (Return (start + r), g')
  else (Raise (ValueError "empty range for randrange()"), g).

(** [random.choice(seq)]. *)
Definition choice {A} (seq : list A) (g : RandomState)
  : Result A * RandomState :=
  let '(r, g') := randbelow (Z.of_nat (length seq)) g in
  match seq !! Z.to_nat r with
  | Some x => (Return x, g')
  | None => (Raise (IndexError "list index out of range"), g')
  end.

End Random.
Export Random.

(** ** The environment side: [AdapterAgent] and its subclasses *)

Module Adapter.

(** *** Collaborators that are outside the source file *)

(** What the Berkeley [GameState] answers to the getters used here.
    Positions are in the environment's (x, y) convention. *)
Record AgentState : Type := { scaredTimer : Z }.

Record GameState : Type := {
  getPacmanPosition : Z * Z;
  getGhostPositions : list (Z * Z);
  getFood : list (list bool);
  agentStates : list AgentState;
  getWalls : list (list bool);
  getScore : Z;
  getLegalActions : nat -> list Direction
}.

Record Layout : Type := { width : Z; height : Z }.

(** The messages of [communication]. *)
Record RequestGameStartMessage : Type := {
  start_agent_id : nat;
  map_width : Z;
  map_height : Z
}.

Record StateMessage : Type := {
  msg_agent_id : nat;
  agent_positions : gmap nat (Z * Z);
  food_positions : list (nat * nat);
  fragile_agents : gmap nat Q;
  wall_positions : list (nat * nat);
  legal_actions : list Direction;
  reward : Z;
  executed_action : Direction;
  msg_test_mode : bool
}.

Inductive Message : Type :=
| GameStart (m : RequestGameStartMessage)
| State (m : StateMessage).

Record ReplyMessage : Type := { action : Direction }.

(** A connected [ZMQMessengerBase]: what was sent so far, and the peer,
    which answers the whole conversation so far. *)
Record ZMQMessengerBase : Type := {
  sent : list Message;
  peer : list Message -> ReplyMessage
}.

Definition send (msg : Message) (c : ZMQMessengerBase) : ZMQMessengerBase :=
  {| sent := sent c ++ [msg]; peer := peer c |}.

Definition receive (c : ZMQMessengerBase) : ReplyMessage := peer c (sent c).

(** A Python object handed to a constructor as [client]. *)
Inductive PyObject : Type :=
| Messenger (class_name : string) (m : ZMQMessengerBase)
| Other (class_name : string).

(** [isinstance(client, ZMQMessengerBase)]: true of the instances of the
    class and of its subclasses. *)
Definition isinstance_ZMQMessengerBase (o : PyObject) : bool :=
  match o with Messenger _ _ => true | Other _ => false end.

(** *** The agent object *)

Inductive AdapterClass : Type :=
| AdapterAgentClass
| PacmanAdapterAgentClass
| GhostAdapterAgentClass.

(** [previous_score] and [invalid_action] are attributes that [__init__]
    does not create: they are [None] until first assigned. *)
Record AdapterAgent : Type := mkAdapterAgent {
  klass : AdapterClass;
  index : nat;
  agent_id : nat;
  client : ZMQMessengerBase;
  previous_action : Direction;
  test_mode : bool;
  previous_score : option Z;
  invalid_action : option bool
}.

Definition PACMAN_INDEX : nat := 0%nat.
Definition DEFAULT_NOISE : Z := 0.

(** The state a method runs in: [self], the module global [NOISE] and the
    generator of [random]. *)
Record World : Type := mkWorld {
  self : AdapterAgent;
  NOISE : Z;
  rng : RandomState
}.

(** The methods of the adapter agents run in a [World]. *)
Definition M (A : Type) : Type := Method World A.

Definition get_self : M AdapterAgent := fun w => (Return (self w), w).

Definition set_self (f : AdapterAgent -> AdapterAgent) : M unit :=
  fun w => (Return tt, mkWorld (f (self w)) (NOISE w) (rng w)).

Definition get_NOISE : M Z := fun w => (Return (NOISE w), w).

Definition with_random {A} (f : RandomState -> Result A * RandomState)
  : M A :=
  fun w => let '(r, g) := f (rng w) in (r, mkWorld (self w) (NOISE w) g).

(** Attribute assignments. *)
Definition set_previous_action (d : Direction) (a : AdapterAgent) :=
  mkAdapterAgent (klass a) (index a) (agent_id a) (client a) d
                 (test_mode a) (previous_score a) (invalid_action a).

Definition set_previous_score (s : Z) (a : AdapterAgent) :=
  mkAdapterAgent (klass a) (index a) (agent_id a) (client a)
                 (previous_action a) (test_mode a) (Some s)
                 (invalid_action a).

Definition set_invalid_action (b : bool) (a : AdapterAgent) :=
  mkAdapterAgent (klass a) (index a) (agent_id a) (client a)
                 (previous_action a) (test_mode a) (previous_score a)
                 (Some b).

Definition set_test_mode (b : bool) (a : AdapterAgent) :=
  mkAdapterAgent (klass a) (index a) (agent_id a) (client a)
                 (previous_action a) b (previous_score a)
                 (invalid_action a).

Definition set_client (c : ZMQMessengerBase) (a : AdapterAgent) :=
  mkAdapterAgent (klass a) (index a) (agent_id a) c
                 (previous_action a) (test_mode a) (previous_score a)
                 (invalid_action a).

(** *** Constructors *)

(** [AdapterAgent.__init__], run for an object of class [cls]. *)
Definition AdapterAgent_init (cls : AdapterClass) (agent_id : nat)
    (client : PyObject) : Result AdapterAgent :=
  match client with
  | Other _ => Raise (ValueError "Invalid client")
  | Messenger _ c =>
      Return {| klass := cls; index := agent_id; agent_id := agent_id;
                client := c; previous_action := STOP; test_mode := false;
                previous_score := None; invalid_action := None |}
  end.

Definition PacmanAdapterAgent_init (client : PyObject)
  : Result AdapterAgent :=
  AdapterAgent_init PacmanAdapterAgentClass PACMAN_INDEX client.

Definition GhostAdapterAgent_init (agent_id : nat) (client : PyObject)
  : Result AdapterAgent :=
  match AdapterAgent_init GhostAdapterAgentClass agent_id client with
  | Return a => Return (set_previous_action NORTH a)
  | Raise e => Raise e
  end.

(** *** Methods *)

(** [__noise_error__]. *)
Definition noise_error : M Z :=
  n <- get_NOISE ;; with_random (randrange (- n) (n + 1)).

(** [calculate_reward], resolved on the class of [self]. Reading
    [self.previous_score] before it was ever assigned is an
    [AttributeError]. *)
Definition calculate_reward (current_score : Z) : M Z :=
  a <- get_self ;;
  match klass a with
  | AdapterAgentClass =>
      raise (NotImplementedError "Communicating agent must calculate score")
  | PacmanAdapterAgentClass =>
      match previous_score a with
      | Some p => ret (current_score - p)
      | None => raise (AttributeError "previous_score")
      end
  | GhostAdapterAgentClass =>
      match previous_score a with
      | Some p => ret (p - current_score)
      | None => raise (AttributeError "previous_score")
      end
  end.

(** [communicate]. *)
Definition communicate (msg : Message) : M ReplyMessage :=
  set_self (fun a => set_client (send msg (client a)) a) ;;;
  a <- get_self ;;
  ret (receive (client a)).

(** The loop over [enumerate(state.getGhostPositions())]; [pos[::-1]] is
    [(snd pos, fst pos)]. *)
Fixpoint ghost_positions_loop (id_ : nat) (ghosts : list (Z * Z))
    (agent_positions : gmap nat (Z * Z)) : M (gmap nat (Z * Z)) :=
  match ghosts with
  | [] => ret agent_positions
  | pos :: rest =>
      n_y <- noise_error ;;
      let pos_y := snd pos + n_y in
      n_x <- noise_error ;;
      let pos_x := fst pos + n_x in
      ghost_positions_loop (S id_) rest
        (<[(id_ + 1)%nat := (pos_y, pos_x)]> agent_positions)
  end.

(** The inner loop over [enumerate(row)], appending [(y, x)] for every true
    cell. *)
Fixpoint row_loop (x y : nat) (row : list bool) (acc : list (nat * nat))
  : list (nat * nat) :=
  match row with
  | [] => acc
  | cell :: rest =>
      row_loop x (S y) rest (if cell then acc ++ [(y, x)] else acc)
  end.

(** The outer loop over [enumerate(grid)]. *)
Fixpoint grid_loop (x : nat) (grid : list (list bool))
    (acc : list (nat * nat)) : list (nat * nat) :=
  match grid with
  | [] => acc
  | row :: rest => grid_loop (S x) rest (row_loop x 0 row acc)
  end.

(** The loop over [enumerate(state.data.agentStates)]. *)
Fixpoint fragile_loop (id_ : nat) (states : list AgentState)
    (fragile : gmap nat Q) : gmap nat Q :=
  match states with
  | [] => fragile
  | s :: rest =>
      fragile_loop (S id_) rest
        (<[id_ := if 0 <? scaredTimer s then 1%Q else 0%Q]> fragile)
  end.

Definition swap_axes (pos : Z * Z) : Z * Z := (snd pos, fst pos).

(** [create_state_message]. *)
Definition create_state_message (state : GameState) : M StateMessage :=
  let agent_positions : gmap nat (Z * Z) :=
    <[PACMAN_INDEX := swap_axes (getPacmanPosition state)]> ∅ in
  agent_positions <-
    ghost_positions_loop 0 (getGhostPositions state) agent_positions ;;
  let food_positions := grid_loop 0 (getFood state) [] in
  let fragile_agents := fragile_loop 0 (agentStates state) ∅ in
  let wall_positions := grid_loop 0 (getWalls state) [] in
  reward <- calculate_reward (getScore state) ;;
  set_self (set_previous_score (getScore state)) ;;;
  a <- get_self ;;
  ret {| msg_agent_id := agent_id a;
         agent_positions := agent_positions;
         food_positions := food_positions;
         fragile_agents := fragile_agents;
         wall_positions := wall_positions;
         legal_actions := getLegalActions state (agent_id a);
         reward := reward;
         executed_action := previous_action a;
         msg_test_mode := test_mode a |}.

Definition enable_learn_mode : M unit := set_self (set_test_mode false).

Definition enable_test_mode : M unit := set_self (set_test_mode true).

(** [self.act_when_invalid], looked up along the classes of [self]:
    [PacmanAdapterAgent] defines it, [GhostAdapterAgent] and [AdapterAgent]
    do not, which leaves the Berkeley base class [berkeley.game.Agent].
    That class is not part of the source file, so what it provides under
    this name, if anything, is the parameter [berkeley_act_when_invalid]. *)
Definition act_when_invalid
    (berkeley_act_when_invalid : option (GameState -> Direction))
    (state : GameState) : M Direction :=
  a <- get_self ;;
  match klass a with
  | PacmanAdapterAgentClass => ret STOP
  | GhostAdapterAgentClass | AdapterAgentClass =>
      match berkeley_act_when_invalid with
      | Some f => ret (f state)
      | None => raise (AttributeError "act_when_invalid")
      end
  end.

(** [getAction]. *)
Definition getAction
    (berkeley_act_when_invalid : option (GameState -> Direction))
    (state : GameState) : M Direction :=
  msg <- create_state_message state ;;
  reply_msg <- communicate (State msg) ;;
  set_self (set_previous_action (action reply_msg)) ;;;
  a <- get_self ;;
  if negb (py_in (action reply_msg) (getLegalActions state (agent_id a)))
  then
    set_self (set_invalid_action true) ;;;
    act_when_invalid berkeley_act_when_invalid state
  else
    set_self (set_invalid_action false) ;;;
    ret (action reply_msg).

(** [start_game]. *)
Definition start_game (layout : Layout) : M unit :=
  set_self (set_previous_score 0) ;;;
  set_self (set_previous_action STOP) ;;;
  a <- get_self ;;
  let msg := {| start_agent_id := agent_id a;
                map_width := width layout;
                map_height := height layout |} in
  communicate (GameStart msg) ;;;
  ret tt.

(** [update]. *)
Definition update (state : GameState) : M unit :=
  msg <- create_state_message state ;;
  communicate (State msg) ;;;
  ret tt.

(** The Berkeley base class as distributed with the Pac-Man projects: it
    defines [__init__] and [getAction] only. *)
Definition berkeley_Agent_act_when_invalid
  : option (GameState -> Direction) := None.

End Adapter.

(** ** The learning core, as the agents see it *)

Module Learning.

(** An instance of [learning.QLearningWithApproximation]. The class is not
    part of the source file; the agents build it from five keyword
    arguments, assign its [learning_rate] and [exploration_rate], and call
    [learn], [act], [get_weights] and [set_weights] on it. *)
Record QLearningWithApproximation (Behavior Feature Weights : Type)
  : Type := mkQLearning {
  learning_rate : Q;
  discount_factor : Q;
  actions : list Behavior;
  features : list Feature;
  exploration_rate : Q;
  weights : Weights
}.

Arguments mkQLearning {Behavior Feature Weights}.
Arguments learning_rate {Behavior Feature Weights}.
Arguments discount_factor {Behavior Feature Weights}.
Arguments actions {Behavior Feature Weights}.
Arguments features {Behavior Feature Weights}.
Arguments exploration_rate {Behavior Feature Weights}.
Arguments weights {Behavior Feature Weights}.

Section Attributes.
Context {Behavior Feature Weights : Type}.
Local Abbreviation Core :=
  (QLearningWithApproximation Behavior Feature Weights).

Definition set_learning_rate (r : Q) (l : Core) : Core :=
  mkQLearning r (discount_factor l) (actions l) (features l)
              (exploration_rate l) (weights l).

Definition set_exploration_rate (r : Q) (l : Core) : Core :=
  mkQLearning (learning_rate l) (discount_factor l) (actions l)
              (features l) r (weights l).

Definition get_weights (l : Core) : Weights := weights l.

Definition set_weights (w : Weights) (l : Core) : Core :=
  mkQLearning (learning_rate l) (discount_factor l) (actions l)
              (features l) (exploration_rate l) w.

End Attributes.

End Learning.

(** ** The decision side: [ControllerAgent] and its subclasses *)

Module Controller.

Definition GHOST_ACTIONS : list Direction := [NORTH; SOUTH; EAST; WEST].
Definition PACMAN_ACTIONS : list Direction := GHOST_ACTIONS ++ [STOP].

(** *** Collaborators that are outside the source file *)

(** The modules [state], [behaviors], [features] and [learning] as the
    agents use them.
    - The controller's game state; the agents read its [iteration].
    - A behavior is called on [(state, legal_actions)] and has a [str].
    - The features are only listed.
    - The learning core starts from some weights and has two operations;
      both may change the core, and [act] may consume randomness. *)
Class Collaborators : Type := {
  GameState : Type;
  iteration : GameState -> Z;
  Behavior : Type;
  behavior_call : Behavior -> GameState -> list Direction -> Direction;
  behavior_str : Behavior -> string;
  EatBehavior : Behavior;
  FleeBehavior : Behavior;
  SeekBehavior : Behavior;
  PursueBehavior : Behavior;
  Feature : Type;
  FoodDistanceFeature : Feature;
  EnemyDistanceFeature : nat -> Feature;
  FragileAgentFeature : nat -> Feature;
  Weights : Type;
  initial_weights : list Behavior -> list Feature -> Weights;
  learn : Learning.QLearningWithApproximation Behavior Feature Weights ->
          GameState -> Behavior -> Z ->
          Learning.QLearningWithApproximation Behavior Feature Weights;
  act : Learning.QLearningWithApproximation Behavior Feature Weights ->
        GameState -> RandomState ->
        Behavior
        * Learning.QLearningWithApproximation Behavior Feature Weights
        * RandomState
}.

Section Agents.
Context {collaborators : Collaborators}.

Local Abbreviation Core :=
  (Learning.QLearningWithApproximation Behavior Feature Weights).

(** *** [RandomPacmanAgent] and [RandomGhostAgent] *)

(** A method that falls off its end returns Python's [None]. *)
Definition RandomPacmanAgent_choose_action (state : GameState)
    (action : Direction) (reward : Z) (legal_actions : list Direction)
    (explore : bool) (g : RandomState)
  : Result (option Direction) * RandomState :=
  if len_positive legal_actions then
    match choice legal_actions g with
    | (Return d, g') => (Return (Some d), g')
    | (Raise e, g') => (Raise e, g')
    end
  else (Return None, g).

Definition RandomGhostAgent_choose_action (state : GameState)
    (action : Direction) (reward : Z) (legal_actions : list Direction)
    (explore : bool) (g : RandomState)
  : Result (option Direction) * RandomState :=
  if len_positive legal_actions then
    match choice legal_actions g with
    | (Return d, g') => (Return (Some d), g')
    | (Raise e, g') => (Raise e, g')
    end
  else (Return None, g).

(** *** [EaterPacmanAgent] *)

Record EaterPacmanAgent : Type := {
  eater_agent_id : nat;
  eater_actions : list Direction;
  eat_behavior : Behavior
}.

Definition EaterPacmanAgent_init (agent_id : nat)
    (ally_ids enemy_ids : list nat) : EaterPacmanAgent :=
  {| eater_agent_id := agent_id;
     eater_actions := PACMAN_ACTIONS;
     eat_behavior := EatBehavior |}.

Definition EaterPacmanAgent_choose_action (self : EaterPacmanAgent)
    (state : GameState) (action : Direction) (reward : Z)
    (legal_actions : list Direction) (test : bool) (g : RandomState)
  : Result Direction * RandomState :=
  let suggested_action :=
    behavior_call (eat_behavior self) state legal_actions in
  if py_in suggested_action legal_actions then (Return suggested_action, g)
  else if is_empty_list legal_actions then (Return STOP, g)
  else choice legal_actions g.

(** *** The behavior learning agents *)

(** Both classes create the same attributes. *)
Record BehaviorLearningAgent : Type := mkBehaviorLearningAgent {
  agent_id : nat;
  agent_actions : list Direction;
  agent_features : list Feature;
  behaviors : list Behavior;
  K : Q;
  exploration_rate : Q;
  learning : Core;
  previous_behavior : Behavior;
  behavior_count : gmap string nat;
  test_mode : bool
}.

(** The calls made on the learning core, each with the core as it was when
    the call was made. *)
Inductive CoreCall : Type :=
| CallLearn (core : Core) (state : GameState) (behavior : Behavior)
            (reward : Z)
| CallAct (core : Core) (state : GameState).

Record World : Type := mkWorld {
  self : BehaviorLearningAgent;
  rng : RandomState;
  calls : list CoreCall
}.

Definition M (A : Type) : Type := Method World A.

Definition get_self : M BehaviorLearningAgent :=
  fun w => (Return (self w), w).

Definition set_self (f : BehaviorLearningAgent -> BehaviorLearningAgent)
  : M unit :=
  fun w => (Return tt, mkWorld (f (self w)) (rng w) (calls w)).

Definition with_random {A} (f : RandomState -> Result A * RandomState)
  : M A :=
  fun w => let '(r, g) := f (rng w) in (r, mkWorld (self w) g (calls w)).

Definition set_learning (l : Core) (a : BehaviorLearningAgent) :=
  mkBehaviorLearningAgent (agent_id a) (agent_actions a) (agent_features a)
    (behaviors a) (K a) (exploration_rate a) l (previous_behavior a)
    (behavior_count a) (test_mode a).

Definition set_previous_behavior (b : Behavior) (a : BehaviorLearningAgent) :=
  mkBehaviorLearningAgent (agent_id a) (agent_actions a) (agent_features a)
    (behaviors a) (K a) (exploration_rate a) (learning a) b
    (behavior_count a) (test_mode a).

Definition set_behavior_count (c : gmap string nat)
    (a : BehaviorLearningAgent) :=
  mkBehaviorLearningAgent (agent_id a) (agent_actions a) (agent_features a)
    (behaviors a) (K a) (exploration_rate a) (learning a)
    (previous_behavior a) c (test_mode a).

Definition set_test_mode (b : bool) (a : BehaviorLearningAgent) :=
  mkBehaviorLearningAgent (agent_id a) (agent_actions a) (agent_features a)
    (behaviors a) (K a) (exploration_rate a) (learning a)
    (previous_behavior a) (behavior_count a) b.

(** [self.learning.learn(state, behavior, reward)]. *)
Definition learning_learn (state : GameState) (behavior : Behavior)
    (reward : Z) : M unit :=
  fun w =>
    let l := learning (self w) in
    (Return tt,
     mkWorld (set_learning (learn l state behavior reward) (self w))
             (rng w)
             (calls w ++ [CallLearn l state behavior reward])).

(** [self.learning.act(state)]. *)
Definition learning_act (state : GameState) : M Behavior :=
  fun w =>
    let l := learning (self w) in
    let '(b, l', g') := act l state (rng w) in
    (Return b,
     mkWorld (set_learning l' (self w)) g' (calls w ++ [CallAct l state])).

(** [a / b] on numbers, the divisor checked as Python does. *)
Definition py_div {W} (a b : Q) : Method W Q :=
  if Qeq_bool b 0 then raise (ZeroDivisionError "float division by zero")
  else ret (a / b)%Q.

(** [d[key] += 1]. *)
Definition increment (key : string) (d : gmap string nat)
  : Result (gmap string nat) :=
  match d !! key with
  | Some n => Return (<[key := (n + 1)%nat]> d)
  | None => Raise (KeyError key)
  end.

(** The loop of [reset_behavior_count]. *)
Fixpoint reset_loop (bs : list Behavior) (count : gmap string nat)
  : gmap string nat :=
  match bs with
  | [] => count
  | behavior :: rest => reset_loop rest (<[behavior_str behavior := 0%nat]> count)
  end.

Definition reset_behavior_count (a : BehaviorLearningAgent)
  : BehaviorLearningAgent :=
  set_behavior_count (reset_loop (behaviors a) (behavior_count a)) a.

(** The feature list both constructors build. *)
Definition init_features (agent_id : nat) (ally_ids enemy_ids : list nat)
  : list Feature :=
  ([FoodDistanceFeature] ++ map EnemyDistanceFeature enemy_ids)
    ++ map FragileAgentFeature ([agent_id] ++ ally_ids ++ enemy_ids).

(** What [__init__] does once [self.behaviors] is known; [behaviors[0]] is
    [first], the list being a literal with a first element. *)
Definition init_with (actions : list Direction) (first : Behavior)
    (bs : list Behavior) (agent_id : nat) (ally_ids enemy_ids : list nat)
  : BehaviorLearningAgent :=
  let fs := init_features agent_id ally_ids enemy_ids in
  let k := 1%Q in
  let rate := (1 # 10)%Q in
  let core :=
    Learning.mkQLearning (1 # 10)%Q (9 # 10)%Q bs fs rate
                         (initial_weights bs fs) in
  reset_behavior_count
    (mkBehaviorLearningAgent agent_id actions fs bs k rate core first
                             ∅ false).

Definition get_policy (a : BehaviorLearningAgent) : Weights :=
  Learning.get_weights (learning a).

Definition set_policy (weights : Weights) (a : BehaviorLearningAgent) :=
  set_learning (Learning.set_weights weights (learning a)) a.

(** **** [BehaviorLearningPacmanAgent] *)

Definition BehaviorLearningPacmanAgent_init :=
  init_with PACMAN_ACTIONS EatBehavior
    [EatBehavior; FleeBehavior; SeekBehavior; PursueBehavior].

Definition BehaviorLearningPacmanAgent_enable_learn_mode : M unit :=
  set_self (set_test_mode false) ;;;
  set_self (fun a =>
    set_learning
      (Learning.set_exploration_rate (exploration_rate a) (learning a)) a).

Definition BehaviorLearningPacmanAgent_enable_test_mode : M unit :=
  set_self (set_test_mode true) ;;;
  set_self (fun a =>
    set_learning (Learning.set_exploration_rate 0%Q (learning a)) a).

Definition BehaviorLearningPacmanAgent_choose_action (state : GameState)
    (action : Direction) (reward : Z) (legal_actions : list Direction)
    (test : bool) : M Direction :=
  (if test then BehaviorLearningPacmanAgent_enable_test_mode
   else BehaviorLearningPacmanAgent_enable_learn_mode) ;;;
  a <- get_self ;;
  (if negb (test_mode a) then
     rate <- py_div (K a) (K a + inject_Z (iteration state))%Q ;;
     set_self (fun a =>
       set_learning (Learning.set_learning_rate rate (learning a)) a) ;;;
     learning_learn state (previous_behavior a) reward
   else ret tt) ;;;
  behavior <- learning_act state ;;
  set_self (set_previous_behavior behavior) ;;;
  let suggested_action := behavior_call behavior state legal_actions in
  a <- get_self ;;
  count <- (fun w => (increment (behavior_str behavior) (behavior_count a), w)) ;;
  set_self (set_behavior_count count) ;;;
  if py_in suggested_action legal_actions then ret suggested_action
  else if is_empty_list legal_actions then ret STOP
  else with_random (choice legal_actions).

(** **** [BehaviorLearningGhostAgent] *)

Definition BehaviorLearningGhostAgent_init :=
  init_with GHOST_ACTIONS FleeBehavior
    [FleeBehavior; SeekBehavior; PursueBehavior].

Definition BehaviorLearningGhostAgent_enable_learn_mode : M unit :=
  set_self (set_test_mode false) ;;;
  set_self (fun a =>
    set_learning
      (Learning.set_exploration_rate (exploration_rate a) (learning a)) a).

Definition BehaviorLearningGhostAgent_enable_test_mode : M unit :=
  set_self (set_test_mode true) ;;;
  set_self (fun a =>
    set_learning (Learning.set_exploration_rate 0%Q (learning a)) a).

Definition BehaviorLearningGhostAgent_choose_action (state : GameState)
    (action : Direction) (reward : Z) (legal_actions : list Direction)
    (test : bool) : M Direction :=
  (if test then BehaviorLearningGhostAgent_enable_test_mode
   else BehaviorLearningGhostAgent_enable_learn_mode) ;;;
  a <- get_self ;;
  (if negb (test_mode a) then
     rate <- py_div (K a) (K a + inject_Z (iteration state))%Q ;;
     set_self (fun a =>
       set_learning (Learning.set_learning_rate rate (learning a)) a) ;;;
     learning_learn state (previous_behavior a) reward
   else ret tt) ;;;
  behavior <- learning_act state ;;
  set_self (set_previous_behavior behavior) ;;;
  let suggested_action := behavior_call behavior state legal_actions in
  a <- get_self ;;
  count <- (fun w => (increment (behavior_str behavior) (behavior_count a), w)) ;;
  set_self (set_behavior_count count) ;;;
  if py_in suggested_action legal_actions then ret suggested_action
  else if is_empty_list legal_actions then ret STOP
  else with_random (choice legal_actions).

End Agents.

End Controller.

(** ** The decision side, continued: the agents without a learning core *)

Module Planning.
Import Controller.

Section Agents.
Context {collaborators : Collaborators}.

(** *** [ControllerAgent], [PacmanAgent] and [GhostAgent] *)

(** The base [choose_action]. *)
Definition ControllerAgent_choose_action (state : GameState)
    (action : Direction) (reward : Z) (legal_actions : list Direction)
    (explore : bool) : Result (option Direction) :=
  Raise (NotImplementedError "Agent must implement choose_action.").

(** *** [RandomPacmanAgentTwo] *)

(** [l.remove(x)]: the first occurrence goes, and a list without [x] raises. *)
Fixpoint py_remove (x : Direction) (l : list Direction)
  : Result (list Direction) :=
  match l with
  | [] => Raise (ValueError "list.remove(x): x not in list")
  | y :: rest =>
      if bool_decide (y = x) then Return rest
      else match py_remove x rest with
           | Return rest' => Return (y :: rest')
           | Raise e => Raise e
           end
  end.

(** The [for possible_action in legal_actions] loop with its counter; [None]
    is the loop running to its end, where the [else] clause takes over. *)
Fixpoint scan_from (number aux : Z) (l : list Direction)
  : option Direction :=
  match l with
  | [] => None
  | possible_action :: rest =>
      if number =? aux then Some possible_action
      else scan_from number (aux + 1) rest
  end.

(** [choose_action] changes the list it is given: the second component is
    [legal_actions] as the caller finds it afterwards. *)
Definition RandomPacmanAgentTwo_choose_action (state : GameState)
    (action : Direction) (reward : Z) (legal_actions : list Direction)
    (explore : bool) (g : RandomState)
  : Result (option Direction) * list Direction * RandomState :=
  if bool_decide (action = STOP) || negb (py_in action legal_actions) then
    match (if py_in STOP legal_actions then py_remove STOP legal_actions
           else Return legal_actions) with
    | Raise e => (Raise e, legal_actions, g)
    | Return legal_actions =>
        if len_positive legal_actions then
          match choice legal_actions g with
          | (Return d, g') => (Return (Some d), legal_actions, g')
          | (Raise e, g') => (Raise e, legal_actions, g')
          end
        else (Return None, legal_actions, g)
    end
  else
    if 3 <? Z.of_nat (length legal_actions) then
      match (if Z.of_nat (length legal_actions) =? 4
             then choice [1; 2; 3; 4; 5] g
             else choice [1; 2; 3; 4; 5; 6] g) with
      | (Raise e, g') => (Raise e, legal_actions, g')
      | (Return number, g') =>
          if (number =? 1) || (number =? 2) then
            (Return (Some action), legal_actions, g')
          else
            match py_remove action legal_actions with
            | Raise e => (Raise e, legal_actions, g')
            | Return legal_actions =>
                match scan_from number 3 legal_actions with
                | Some possible_action =>
                    (Return (Some possible_action), legal_actions, g')
                | None =>
                    match choice legal_actions g' with
                    | (Return d, g'') =>
                        (Return (Some d), legal_actions, g'')
                    | (Raise e, g'') => (Raise e, legal_actions, g'')
                    end
                end
            end
      end
    else (Return (Some action), legal_actions, g).

(** *** [BFS_PacmanAgent] *)

(** What the search asks of the controller's state: [state.get_position()],
    [state.get_map()._is_valid_position(p)], [state.food_map[a][b] == 1],
    which can raise when the map rejects the indices, and
    [state.calculate_distance(p, q)]. *)
Variable get_position : GameState -> Z * Z.
Variable is_valid_position : GameState -> Z * Z -> bool.
Variable food_at : GameState -> Z -> Z -> Result bool.
Variable calculate_distance : GameState -> Z * Z -> Z * Z -> Q.

(** The variables of the [while] loop: the queue, first in first out, the
    visited list and the closest food. *)
Record Search : Type := mkSearch {
  q : list (Z * Z);
  visited : list (Z * Z);
  closest_food : option (Z * Z)
}.

(** [p in visited]. *)
Definition position_in (p : Z * Z) (l : list (Z * Z)) : bool :=
  existsb (fun p' => bool_decide (p = p')) l.

(** The body of the two [for] loops, for one [(i, j)]. *)
Definition visit (state : GameState) (Current_Position : Z * Z)
    (ij : Z * Z) (s : Search) : Result Search :=
  let new_position :=
    (fst Current_Position + fst ij, snd Current_Position + snd ij) in
  let s :=
    if is_valid_position state new_position
       && negb (position_in new_position (visited s))
    then mkSearch (q s ++ [new_position]) (visited s ++ [new_position])
                  (closest_food s)
    else s in
  match food_at state (fst new_position) (snd new_position) with
  | Raise e => Raise e
  | Return is_food =>
      Return (if is_food && negb (bool_decide (is_Some (closest_food s)))
              then mkSearch (q s) (visited s) (Some new_position)
              else s)
  end.

(** [for i in range(-1, 2): for j in range(-1, 2)]. *)
Definition offsets : list (Z * Z) :=
  [(-1, -1); (-1, 0); (-1, 1); (0, -1); (0, 0); (0, 1); (1, -1); (1, 0);
   (1, 1)].

Fixpoint visit_all (state : GameState) (Current_Position : Z * Z)
    (ijs : list (Z * Z)) (s : Search) : Result Search :=
  match ijs with
  | [] => Return s
  | ij :: rest =>
      match visit state Current_Position ij s with
      | Raise e => Raise e
      | Return s' => visit_all state Current_Position rest s'
      end
  end.

(** [while (not q.empty())], for at most [fuel] rounds; [None] is the loop
    still running when the fuel is spent. *)
Fixpoint search_loop (fuel : nat) (state : GameState) (s : Search)
  : option (Result Search) :=
  match fuel with
  | O => None
  | S fuel' =>
      match q s with
      | [] => Some (Return s)
      | Current_Position :: rest =>
          match visit_all state Current_Position offsets
                  (mkSearch rest (visited s) (closest_food s)) with
          | Raise e => Some (Raise e)
          | Return s' => search_loop fuel' state s'
          end
      end
  end.

(** [new_dist < min_dist] in Python 2, where [None] is below every number. *)
Definition py2_lt (new_dist : Q) (min_dist : option Q) : bool :=
  match min_dist with
  | None => false
  | Some m => negb (Qle_bool m new_dist)
  end.

(** The loop [for action in legal_actions] that keeps the best action. *)
Fixpoint best_loop (state : GameState) (Initial_Position closest : Z * Z)
    (legal_actions : list Direction) (min_dist : option Q)
    (best_action : option Direction) : option Direction :=
  match legal_actions with
  | [] => best_action
  | action :: rest =>
      let new_dist := calculate_distance state Initial_Position closest in
      if py2_lt new_dist min_dist
      then best_loop state Initial_Position closest rest (Some new_dist)
                     (Some action)
      else best_loop state Initial_Position closest rest min_dist
                     best_action
  end.

Definition BFS_PacmanAgent_choose_action (fuel : nat) (state : GameState)
    (action : Direction) (reward : Z) (legal_actions : list Direction)
    (explore : bool) : option (Result (option Direction)) :=
  let Initial_Position := get_position state in
  match search_loop fuel state
          (mkSearch [Initial_Position] [Initial_Position] None) with
  | None => None
  | Some (Raise e) => Some (Raise e)
  | Some (Return s) =>
      match closest_food s with
      | None => Some (Return (Some STOP))
      | Some closest =>
          if len_positive legal_actions then
            Some (Return (best_loop state Initial_Position closest
                                    legal_actions None None))
          else Some (Return (Some STOP))
      end
  end.

(** The cells the search may enter: those of [cells] and where it starts. *)
Definition tracked (init : Z * Z) (cells : list (Z * Z)) (s : Search)
  : Prop :=
  NoDup (visited s) /\ forall p, p ∈ visited s -> p ∈ init :: cells.

End Agents.

End Planning.

(** ** Vocabulary of the properties, and sample runs *)

Module Spec.
Import Adapter.

(** The reward of a class that implements [calculate_reward]. *)
Definition reward_of (cls : AdapterClass) (previous current : Z) : Z :=
  match cls with
  | PacmanAdapterAgentClass => current - previous
  | _ => previous - current
  end.

(** [self] after the encoding and the exchange of [getAction], before the
    reply is checked. *)
Definition after_exchange (state : GameState) (msg : StateMessage)
    (a : AdapterAgent) : AdapterAgent :=
  let c := send (State msg) (client a) in
  set_previous_action (action (receive c))
    (set_client c (set_previous_score (getScore state) a)).

(** The three tiers of the fallback: [d] answers the suggestion [x] under
    the legal actions [L]. *)
Definition three_tier (x : Direction) (L : list Direction) (d : Direction)
  : Prop :=
  (x ∈ L -> d = x) /\ (L = [] -> d = STOP) /\ (x ∉ L -> L <> [] -> d ∈ L).

(** A run of the observe-only exchange: one [update] per state, in order. *)
Fixpoint push_states (states : list GameState) : M unit :=
  match states with
  | [] => ret tt
  | state :: rest => update state ;;; push_states rest
  end.

(** A message with its test-mode flag replaced. *)
Definition with_test_mode (b : bool) (m : StateMessage) : StateMessage :=
  {| msg_agent_id := msg_agent_id m;
     agent_positions := agent_positions m;
     food_positions := food_positions m;
     fragile_agents := fragile_agents m;
     wall_positions := wall_positions m;
     legal_actions := legal_actions m;
     reward := reward m;
     executed_action := executed_action m;
     msg_test_mode := b |}.

(** The sum of a list of rewards. *)
Definition total (rewards : list Z) : Z := foldr Z.add 0 rewards.

(** How a scared timer is reported. *)
Definition fragility (s : AgentState) : Q :=
  if 0 <? scaredTimer s then 1%Q else 0%Q.

(** The cell [(x, y)] of a grid handed out column by column. *)
Definition cell (grid : list (list bool)) (x y : nat) : bool :=
  match grid !! x with
  | Some column => match column !! y with Some b => b | None => false end
  | None => false
  end.

End Spec.

Module ControllerSpec.
Import Controller.

Section Vocabulary.
Context {collaborators : Collaborators}.

(** What the constructors of the learning agents establish: a positive
    [K], a core that chooses among the agent's behaviors, and a usage
    counter for each of them. *)
Definition well_formed (a : BehaviorLearningAgent) : Prop :=
  (0 < K a)%Q
  /\ Learning.actions (learning a) = behaviors a
  /\ forall b, b ∈ behaviors a ->
       is_Some (behavior_count a !! behavior_str b).

(** A learning core that keeps the action set [bs], and whose [act]
    chooses from it. *)
Definition core_keeps_actions (bs : list Behavior) : Prop :=
  (forall core state b reward,
     Learning.actions core = bs ->
     Learning.actions (learn core state b reward) = bs)
  /\ (forall core state g,
       Learning.actions core = bs ->
       (act core state g).1.1 ∈ bs
       /\ Learning.actions (act core state g).1.2 = bs).

(** The core as the mode switch at the start of [choose_action] leaves it. *)
Definition switched (test : bool) (a : BehaviorLearningAgent) :=
  Learning.set_exploration_rate
    (if test then 0%Q else exploration_rate a) (learning a).

(** The core that [learn] is called on. *)
Definition scheduled (state : GameState) (a : BehaviorLearningAgent) :=
  Learning.set_learning_rate
    (K a / (K a + inject_Z (iteration state)))%Q (switched false a).

(** The core that [act] is called on. *)
Definition consulted (state : GameState) (reward : Z) (test : bool)
    (a : BehaviorLearningAgent) :=
  if test then switched true a
  else learn (scheduled state a) state (previous_behavior a) reward.

(** The calls made before [act]. *)
Definition calls_before_act (state : GameState) (reward : Z) (test : bool)
    (w : World) : list CoreCall :=
  if test then calls w
  else calls w ++ [CallLearn (scheduled state (self w)) state
                             (previous_behavior (self w)) reward].

End Vocabulary.

End ControllerSpec.

Module Scenario.
Import Adapter.

(** A peer that answers every message with the same action. *)
Definition constant_peer (reply : Direction) : list Message -> ReplyMessage :=
  fun _ => {| action := reply |}.

Definition fresh_client (reply : Direction) : PyObject :=
  Messenger "ZMQClient"
            {| sent := []; peer := constant_peer reply |}.

Definition sample_random : RandomState :=
  mkRandom (fun n => 7 * Z.of_nat n + 5) 0.

(** A board with two ghosts where only [NORTH] is legal. *)
Definition sample_state (score : Z) : GameState :=
  {| getPacmanPosition := (1, 2);
     getGhostPositions := [(3, 4); (6, 5)];
     getFood := [[false; true]; [true; false]];
     agentStates := [ {| scaredTimer := 0 |}; {| scaredTimer := 3 |};
                      {| scaredTimer := 0 |} ];
     getWalls := [[true; false]; [false; false]];
     getScore := score;
     getLegalActions := fun _ => [NORTH] |}.

Definition sample_layout : Layout := {| width := 2; height := 2 |}.

(** An agent that never ran a constructor; used when a constructor raises. *)
Definition blank_agent : AdapterAgent :=
  mkAdapterAgent AdapterAgentClass 0 0
                 {| sent := []; peer := constant_peer STOP |}
                 STOP false None None.

Definition constructed (r : Result AdapterAgent) : AdapterAgent :=
  match r with Return a => a | Raise _ => blank_agent end.

(** The hunted agent and the first hunter, built by their constructors and
    taken through [start_game], with [NOISE] set to [noise]. *)
Definition started (a : AdapterAgent) (noise : Z) : World :=
  snd (start_game sample_layout (mkWorld a noise sample_random)).

Definition pacman_world (reply : Direction) (noise : Z) : World :=
  started (constructed (PacmanAdapterAgent_init (fresh_client reply))) noise.

Definition ghost_world (reply : Direction) (noise : Z) : World :=
  started (constructed (GhostAdapterAgent_init 1 (fresh_client reply))) noise.

(** The same worlds after a first state with score 6 was pushed. *)
Definition pacman_world_scored (reply : Direction) (noise : Z) : World :=
  snd (update (sample_state 6) (pacman_world reply noise)).

Definition ghost_world_scored (reply : Direction) (noise : Z) : World :=
  snd (update (sample_state 6) (ghost_world reply noise)).

(** The two agents as their constructors leave them, before any game. *)
Definition unstarted_pacman (noise : Z) : World :=
  mkWorld (constructed (PacmanAdapterAgent_init (fresh_client STOP)))
          noise sample_random.

Definition unstarted_ghost (noise : Z) : World :=
  mkWorld (constructed (GhostAdapterAgent_init 1 (fresh_client STOP)))
          noise sample_random.

(** Three states in a row, with scores 6, 10 and 7. *)
Definition sample_run : list GameState :=
  [sample_state 6; sample_state 10; sample_state 7].

End Scenario.

Module ControllerScenario.
Import Controller.

(** Four behaviors that each suggest one fixed direction. *)
Inductive SampleBehavior : Type := Eat | Flee | Seek | Pursue.

Definition sample_call (b : SampleBehavior) (state : Z)
    (legal_actions : list Direction) : Direction :=
  match b with
  | Eat => EAST
  | Flee => NORTH
  | Seek => SOUTH
  | Pursue => WEST
  end.

Definition sample_str (b : SampleBehavior) : string :=
  match b with
  | Eat => "Eat"
  | Flee => "Flee"
  | Seek => "Seek"
  | Pursue => "Pursue"
  end.

Inductive SampleFeature : Type :=
| FoodDistance
| EnemyDistance (enemy_id : nat)
| FragileAgent (id_ : nat).

Local Abbreviation SampleCore :=
  (Learning.QLearningWithApproximation SampleBehavior SampleFeature (list Q)).

(** A core whose [learn] moves every weight by the learning rate times the
    reward, and whose [act] takes the first action and changes nothing. *)
Definition sample_learn (l : SampleCore) (state : Z) (b : SampleBehavior)
    (reward : Z) : SampleCore :=
  Learning.set_weights
    (map (fun x => (x + Learning.learning_rate l * inject_Z reward)%Q)
         (Learning.weights l))
    l.

Definition sample_act (l : SampleCore) (state : Z) (g : RandomState)
  : SampleBehavior * SampleCore * RandomState :=
  (match Learning.actions l with b :: _ => b | [] => Eat end, l, g).

(** The state is its iteration count. *)
Definition sample_collaborators : Collaborators :=
  {| GameState := Z;
     iteration := fun state => state;
     Behavior := SampleBehavior;
     behavior_call := sample_call;
     behavior_str := sample_str;
     EatBehavior := Eat;
     FleeBehavior := Flee;
     SeekBehavior := Seek;
     PursueBehavior := Pursue;
     Feature := SampleFeature;
     FoodDistanceFeature := FoodDistance;
     EnemyDistanceFeature := EnemyDistance;
     FragileAgentFeature := FragileAgent;
     Weights := list Q;
     initial_weights := fun bs fs => map (fun _ => 0%Q) fs;
     learn := sample_learn;
     act := sample_act |}.

Definition sample_eater : EaterPacmanAgent (collaborators := sample_collaborators) :=
  EaterPacmanAgent_init 0 [] [1; 2]%nat.

(** The hunted learner and the first hunter as constructed. *)
Definition pacman_learner : World (collaborators := sample_collaborators) :=
  mkWorld (BehaviorLearningPacmanAgent_init 0 [] [1; 2]%nat)
          Scenario.sample_random [].



(** A two by two map for the search. The agent stands at (0, 0); food, when
    the state is past iteration 0, lies there and nowhere else. *)
Definition sample_position (state : Z) : Z * Z := (0, 0).

Definition sample_valid (state : Z) (p : Z * Z) : bool :=
  (0 <=? p.1) && (p.1 <? 2) && (0 <=? p.2) && (p.2 <? 2).

Definition sample_food (state : Z) (a b : Z) : Result bool :=
  Return ((0 <? state) && (a =? 0) && (b =? 0)).

Definition sample_distance (state : Z) (p p' : Z * Z) : Q :=
  inject_Z (Z.abs (p.1 - p'.1) + Z.abs (p.2 - p'.2)).

Definition sample_cells : list (Z * Z) := [(0, 0); (0, 1); (1, 0); (1, 1)].

End ControllerScenario.

(** ** Properties of the environment side *)

Module AdapterProofs.
Import Adapter Spec.

(** *** The noise model *)

Lemma randrange_symmetric (B : Z) (g : RandomState) :
  0 <= B ->
  exists r,
    randrange (- B) (B + 1) g
      = (Return r, mkRandom (draws g) (S (cursor g)))
    /\ - B <= r <= B.
Proof.
  intros HB. unfold randrange, randbelow.
  assert (Hw : 0 < B + 1 - - B) by lia.
  apply Z.ltb_lt in Hw as Hw'. rewrite Hw'.
  eexists; split; [reflexivity|].
  pose proof (Z.mod_pos_bound (draws g (cursor g)) (B + 1 - - B) Hw). lia.
Qed.

Lemma noise_error_bounded (w : World) :
  0 <= NOISE w ->
  exists r g',
    noise_error w = (Return r, mkWorld (self w) (NOISE w) g')
    /\ - NOISE w <= r <= NOISE w.
Proof.
  intros HB. destruct (randrange_symmetric (NOISE w) (rng w) HB) as (r & Hr & Hb).
  exists r; eexists. unfold noise_error, bind, get_NOISE, with_random.
  rewrite Hr. split; [reflexivity | exact Hb].
Qed.

(** The loop over the ghosts succeeds, leaves [self] and [NOISE] alone,
    keeps the entries below its starting key and stores every ghost within
    the noise bound of its swapped position. *)
Lemma ghost_positions_loop_spec (ghosts : list (Z * Z)) :
  forall (id_ : nat) (acc : gmap nat (Z * Z)) (w : World),
    0 <= NOISE w ->
    exists m g',
      ghost_positions_loop id_ ghosts acc w
        = (Return m, mkWorld (self w) (NOISE w) g')
      /\ (forall j, (j <= id_)%nat -> m !! j = acc !! j)
      /\ (forall i x y, ghosts !! i = Some (x, y) ->
            exists y' x',
              m !! (id_ + 1 + i)%nat = Some (y', x')
              /\ y - NOISE w <= y' <= y + NOISE w
              /\ x - NOISE w <= x' <= x + NOISE w).
Proof.
  induction ghosts as [|[x0 y0] rest IH]; intros id_ acc w HB.
  - exists acc, (rng w). destruct w; simpl. split; [reflexivity|].
    split; [reflexivity|]. intros i x y Hi. rewrite lookup_nil in Hi. discriminate.
  - destruct (noise_error_bounded w HB) as (ny & g1 & Hy & Hby).
    set (w1 := mkWorld (self w) (NOISE w) g1) in *.
    destruct (noise_error_bounded w1 HB) as (nx & g2 & Hx & Hbx).
    set (w2 := mkWorld (self w1) (NOISE w1) g2) in *.
    destruct (IH (S id_) (<[(id_ + 1)%nat := (y0 + ny, x0 + nx)]> acc) w2 HB)
      as (m & g3 & Hrun & Hkeep & Hnew).
    exists m, g3. split; [|split].
    + simpl. unfold bind at 1. rewrite Hy. unfold bind at 1. rewrite Hx.
      exact Hrun.
    + intros j Hj. rewrite Hkeep by lia. apply lookup_insert_ne. lia.
    + intros [|i] x y Hi; simpl in Hi.
      * injection Hi as -> ->. exists (y + ny), (x + nx).
        rewrite Nat.add_0_r, Hkeep by lia.
        rewrite lookup_insert_eq. simpl in *. split; [reflexivity | lia].
      * destruct (Hnew i x y Hi) as (y' & x' & Hm & Hb).
        exists y', x'. split; [|exact Hb].
        rewrite <- Hm. f_equal. lia.
Qed.

(** *** Encoding a state *)

Lemma calculate_reward_returns (current : Z) (w : World) (p : Z) :
  klass (self w) <> AdapterAgentClass ->
  previous_score (self w) = Some p ->
  calculate_reward current w
    = (Return (reward_of (klass (self w)) p current), w).
Proof.
  intros Hk Hp. unfold calculate_reward, bind, get_self.
  destruct (klass (self w)); [congruence | |]; rewrite Hp; reflexivity.
Qed.

(** Once a score was recorded and [NOISE] is not negative, encoding a state
    returns a message; the only attribute it assigns is [previous_score]. *)
Lemma create_state_message_returns (state : GameState) (w : World) (p : Z) :
  0 <= NOISE w ->
  klass (self w) <> AdapterAgentClass ->
  previous_score (self w) = Some p ->
  exists msg g',
    create_state_message state w
      = (Return msg,
         mkWorld (set_previous_score (getScore state) (self w)) (NOISE w) g')
    /\ executed_action msg = previous_action (self w)
    /\ reward msg = reward_of (klass (self w)) p (getScore state)
    /\ legal_actions msg = getLegalActions state (agent_id (self w))
    /\ msg_test_mode msg = test_mode (self w)
    /\ agent_positions msg !! PACMAN_INDEX
         = Some (swap_axes (getPacmanPosition state))
    /\ (forall i x y, getGhostPositions state !! i = Some (x, y) ->
          exists y' x',
            agent_positions msg !! (i + 1)%nat = Some (y', x')
            /\ y - NOISE w <= y' <= y + NOISE w
            /\ x - NOISE w <= x' <= x + NOISE w).
Proof.
  intros HB Hk Hp.
  destruct (ghost_positions_loop_spec (getGhostPositions state) 0
              (<[PACMAN_INDEX := swap_axes (getPacmanPosition state)]> ∅)
              w HB) as (m & g' & Hloop & Hkeep & Hnew).
  eexists; exists g'. unfold create_state_message.
  unfold bind at 1. rewrite Hloop.
  unfold bind at 1.
  rewrite (calculate_reward_returns _ _ p); simpl; try assumption.
  split; [reflexivity|]. simpl.
  repeat (split; [reflexivity|]).
  split.
  - rewrite Hkeep by reflexivity. apply lookup_insert_eq.
  - intros i x y Hi. destruct (Hnew i x y Hi) as (y' & x' & Hm & Hb).
    exists y', x'. split; [|exact Hb]. rewrite <- Hm. f_equal. lia.
Qed.

(** *** One step exchange *)

Lemma getAction_unfold berkeley (state : GameState) (w : World) msg g' :
  create_state_message state w
    = (Return msg,
       mkWorld (set_previous_score (getScore state) (self w)) (NOISE w) g') ->
  let a := after_exchange state msg (self w) in
  getAction berkeley state w =
    if py_in (previous_action a) (getLegalActions state (agent_id (self w)))
    then (Return (previous_action a),
          mkWorld (set_invalid_action false a) (NOISE w) g')
    else act_when_invalid berkeley state
           (mkWorld (set_invalid_action true a) (NOISE w) g').
Proof.
  intros Hmsg a. unfold getAction. unfold bind at 1. rewrite Hmsg.
  unfold communicate, bind, set_self, get_self, ret; simpl.
  fold a.
  destruct (py_in _ _); reflexivity.
Qed.

Lemma update_unfold (state : GameState) (w : World) msg g' :
  create_state_message state w
    = (Return msg,
       mkWorld (set_previous_score (getScore state) (self w)) (NOISE w) g') ->
  update state w =
    (Return tt,
     mkWorld (set_client (send (State msg) (client (self w)))
                (set_previous_score (getScore state) (self w)))
             (NOISE w) g').
Proof.
  intros Hmsg. unfold update. unfold bind at 1. rewrite Hmsg.
  reflexivity.
Qed.

(** *** What an exception leaves behind *)

Lemma noise_error_frame (w : World) :
  self (snd (noise_error w)) = self w.
Proof.
  unfold noise_error, bind, get_NOISE, with_random.
  destruct (randrange _ _ _) as [[r|e] g]; reflexivity.
Qed.

Lemma ghost_positions_loop_frame (ghosts : list (Z * Z)) :
  forall id_ acc w, self (snd (ghost_positions_loop id_ ghosts acc w)) = self w.
Proof.
  induction ghosts as [|pos rest IH]; intros id_ acc w; [reflexivity|].
  simpl. unfold bind at 1.
  pose proof (noise_error_frame w) as H1.
  destruct (noise_error w) as [[ny|e] w1]; simpl in H1; [|exact H1].
  unfold bind at 1.
  pose proof (noise_error_frame w1) as H2.
  destruct (noise_error w1) as [[nx|e] w2]; simpl in H2;
    [|simpl; congruence].
  rewrite IH. congruence.
Qed.

Lemma calculate_reward_frame (current : Z) (w : World) :
  snd (calculate_reward current w) = w.
Proof.
  unfold calculate_reward, bind, get_self.
  destruct (klass (self w)); [reflexivity | |];
    destruct (previous_score (self w)); reflexivity.
Qed.

(** Encoding never assigns [previous_action], whether it returns or not. *)
Lemma create_state_message_previous_action (state : GameState) (w : World) :
  previous_action (self (snd (create_state_message state w)))
    = previous_action (self w).
Proof.
  unfold create_state_message. unfold bind at 1.
  pose proof (ghost_positions_loop_frame (getGhostPositions state) 0
                (<[PACMAN_INDEX := swap_axes (getPacmanPosition state)]> ∅) w)
    as Hloop.
  destruct (ghost_positions_loop _ _ _ _) as [[m|e] w1]; simpl in Hloop;
    [|simpl; congruence].
  unfold bind at 1.
  pose proof (calculate_reward_frame (getScore state) w1) as Hr.
  destruct (calculate_reward _ _) as [[r|e] w2]; simpl in Hr; subst w2;
    simpl; congruence.
Qed.

(** *** The claims about the adapter agents *)

(** C8. The constructor of [AdapterAgent] raises exactly when [client] is
    not an instance of [ZMQMessengerBase], and then it raises [ValueError];
    when it returns, the agent has [previous_action = STOP] and
    [test_mode = False]. *)
Theorem AdapterAgent_init_checks_client
    (cls : AdapterClass) (agent_id : nat) (client : PyObject) :
  match AdapterAgent_init cls agent_id client with
  | Raise e =>
      isinstance_ZMQMessengerBase client = false
      /\ e = ValueError "Invalid client"
  | Return a =>
      isinstance_ZMQMessengerBase client = true
      /\ previous_action a = STOP /\ test_mode a = false
  end.
Proof. destruct client; simpl; repeat split. Qed.

(** The constructor of the hunters then replaces the previous action. *)
Lemma GhostAdapterAgent_init_previous_action (agent_id : nat) name c :
  exists a, GhostAdapterAgent_init agent_id (Messenger name c) = Return a
            /\ previous_action a = NORTH /\ test_mode a = false.
Proof. eexists; repeat split. Qed.

(** C4. With a recorded previous score [p], the hunted adapter's
    [calculate_reward(c)] returns [c - p] and a hunter adapter's returns
    [p - c]; neither changes any state. *)
Theorem calculate_reward_by_role (c p : Z) (w : World) :
  previous_score (self w) = Some p ->
  (klass (self w) = PacmanAdapterAgentClass ->
     calculate_reward c w = (Return (c - p), w))
  /\ (klass (self w) = GhostAdapterAgentClass ->
       calculate_reward c w = (Return (p - c), w)).
Proof.
  intros Hp; split; intros Hk;
    rewrite (calculate_reward_returns c w p) by congruence;
    rewrite Hk; reflexivity.
Qed.

(** C5. With [NOISE = B >= 0], every ghost at [(x, y)] is encoded at some
    [(y', x')] with [y'] within [B] of [y] and [x'] within [B] of [x], and
    at [(y, x)] exactly when [B = 0]; the position of the hunted agent is
    encoded as its swapped true position whatever [B] is. *)
Theorem opponent_positions_within_noise
    (state : GameState) (w : World) (p : Z) :
  0 <= NOISE w ->
  klass (self w) <> AdapterAgentClass ->
  previous_score (self w) = Some p ->
  exists msg w',
    create_state_message state w = (Return msg, w')
    /\ (forall i x y, getGhostPositions state !! i = Some (x, y) ->
          exists y' x',
            agent_positions msg !! (i + 1)%nat = Some (y', x')
            /\ y - NOISE w <= y' <= y + NOISE w
            /\ x - NOISE w <= x' <= x + NOISE w
            /\ (NOISE w = 0 -> (y', x') = (y, x)))
    /\ agent_positions msg !! PACMAN_INDEX
         = Some (swap_axes (getPacmanPosition state)).
Proof.
  intros HB Hk Hp.
  destruct (create_state_message_returns state w p HB Hk Hp)
    as (msg & g' & Hrun & _ & _ & _ & _ & Hpac & Hghosts).
  exists msg; eexists. split; [exact Hrun|]. split; [|exact Hpac].
  intros i x y Hi. destruct (Hghosts i x y Hi) as (y' & x' & Hm & Hy & Hx).
  exists y', x'. repeat split; try assumption; try lia.
  intros H0. f_equal; lia.
Qed.

(** C9. [update] never assigns [previous_action]; once a score was
    recorded, [update] returns and [getAction] gets its reply, both leave
    [previous_score] at the score of the state, and [getAction] leaves
    [previous_action] at the action of the reply to the message it sent. *)
Theorem update_keeps_previous_action
    berkeley (state : GameState) (w : World) (p : Z) :
  0 <= NOISE w ->
  klass (self w) <> AdapterAgentClass ->
  previous_score (self w) = Some p ->
  let wu := snd (update state w) in
  let wg := snd (getAction berkeley state w) in
  fst (update state w) = Return tt
  /\ previous_action (self wu) = previous_action (self w)
  /\ previous_score (self wu) = Some (getScore state)
  /\ (exists msg,
        sent (client (self wg)) = sent (client (self w)) ++ [State msg]
        /\ previous_action (self wg)
             = action (peer (client (self w)) (sent (client (self wg)))))
  /\ previous_score (self wg) = Some (getScore state).
Proof.
  intros HB Hk Hp.
  destruct (create_state_message_returns state w p HB Hk Hp)
    as (msg & g' & Hrun & _).
  simpl. rewrite (update_unfold state w msg g' Hrun).
  rewrite (getAction_unfold berkeley state w msg g' Hrun).
  repeat (split; [reflexivity|]).
  destruct (py_in _ _);
    [split; [exists msg; split; reflexivity | reflexivity]|].
  unfold act_when_invalid, bind, get_self; simpl.
  destruct (klass (self w)); try destruct berkeley;
    (split; [exists msg; split; reflexivity | reflexivity]).
Qed.

(** [update] leaves [previous_action] alone even when it raises. *)
Lemma update_previous_action_frame (state : GameState) (w : World) :
  previous_action (self (snd (update state w))) = previous_action (self w).
Proof.
  unfold update. unfold bind at 1.
  pose proof (create_state_message_previous_action state w) as H.
  destruct (create_state_message state w) as [[msg|e] w1]; simpl in H;
    [|exact H].
  simpl. exact H.
Qed.

(** The hunted adapter answers an illegal reply with [STOP]. *)
Lemma pacman_getAction_illegal_reply_stops
    berkeley (state : GameState) (w : World) (p : Z) :
  0 <= NOISE w ->
  klass (self w) = PacmanAdapterAgentClass ->
  previous_score (self w) = Some p ->
  (forall history,
     py_in (action (peer (client (self w)) history))
           (getLegalActions state (agent_id (self w))) = false) ->
  exists msg g',
    getAction berkeley state w
      = (Return STOP,
         mkWorld (set_invalid_action true
                    (after_exchange state msg (self w)))
                 (NOISE w) g').
Proof.
  intros HB Hk Hp Hillegal.
  destruct (create_state_message_returns state w p HB) as (msg & g' & Hrun & _);
    [congruence | exact Hp |].
  exists msg, g'.
  rewrite (getAction_unfold berkeley state w msg g' Hrun).
  unfold after_exchange at 1. simpl. unfold receive; simpl.
  rewrite Hillegal.
  unfold act_when_invalid, bind, get_self; simpl. rewrite Hk. reflexivity.
Qed.

(** C1, where the code departs from it. A hunter adapter that receives an
    illegal reply looks up [act_when_invalid], which neither its class nor
    [AdapterAgent] defines: [getAction] returns whatever the Berkeley base
    class provides under that name, and with a base class that provides
    nothing it raises [AttributeError] instead of returning a fallback
    action. *)
Theorem ghost_getAction_illegal_reply_raises
    berkeley (state : GameState) (w : World) (p : Z) :
  0 <= NOISE w ->
  klass (self w) = GhostAdapterAgentClass ->
  previous_score (self w) = Some p ->
  (forall history,
     py_in (action (peer (client (self w)) history))
           (getLegalActions state (agent_id (self w))) = false) ->
  fst (getAction berkeley state w)
    = match berkeley with
      | Some f => Return (f state)
      | None => Raise (AttributeError "act_when_invalid")
      end.
Proof.
  intros HB Hk Hp Hillegal.
  destruct (create_state_message_returns state w p HB) as (msg & g' & Hrun & _);
    [congruence | exact Hp |].
  rewrite (getAction_unfold _ state w msg g' Hrun).
  unfold after_exchange at 1. simpl. unfold receive; simpl.
  rewrite Hillegal.
  unfold act_when_invalid, bind, get_self; simpl. rewrite Hk.
  destruct berkeley; reflexivity.
Qed.

(** C2, where the code departs from it. After the hunted adapter replaced
    an illegal reply by [STOP], the next message it encodes carries the
    rejected reply as [executed_action], not the [STOP] that was applied. *)
Theorem executed_action_reports_rejected_reply
    berkeley (state next : GameState) (w : World) (p : Z) :
  0 <= NOISE w ->
  klass (self w) = PacmanAdapterAgentClass ->
  previous_score (self w) = Some p ->
  (forall history,
     py_in (action (peer (client (self w)) history))
           (getLegalActions state (agent_id (self w))) = false) ->
  exists w1 msg w2,
    getAction berkeley state w = (Return STOP, w1)
    /\ create_state_message next w1 = (Return msg, w2)
    /\ executed_action msg
         = action (peer (client (self w)) (sent (client (self w1)))).
Proof.
  intros HB Hk Hp Hillegal.
  destruct (pacman_getAction_illegal_reply_stops berkeley state w p
              HB Hk Hp Hillegal) as (msg & g' & Hrun).
  eexists. rewrite Hrun.
  edestruct (create_state_message_returns next) as (msg' & g2 & Hnext & Hex & _);
    [| | | exists msg'; eexists; split; [reflexivity|]; split; [exact Hnext|]].
  - exact HB.
  - simpl. congruence.
  - reflexivity.
  - rewrite Hex. reflexivity.
Qed.

(** When the reply is legal, the next message does carry the action that
    was returned to the environment. *)
Lemma executed_action_reports_legal_reply
    berkeley (state next : GameState) (w : World) (p : Z) :
  0 <= NOISE w ->
  klass (self w) <> AdapterAgentClass ->
  previous_score (self w) = Some p ->
  (forall history,
     py_in (action (peer (client (self w)) history))
           (getLegalActions state (agent_id (self w))) = true) ->
  exists d w1 msg w2,
    getAction berkeley state w = (Return d, w1)
    /\ create_state_message next w1 = (Return msg, w2)
    /\ executed_action msg = d.
Proof.
  intros HB Hk Hp Hlegal.
  destruct (create_state_message_returns state w p HB Hk Hp)
    as (msg & g' & Hrun & _).
  rewrite (getAction_unfold berkeley state w msg g' Hrun).
  unfold after_exchange at 1. simpl. unfold receive; simpl.
  rewrite Hlegal.
  eexists; eexists.
  edestruct (create_state_message_returns next) as (msg' & g2 & Hnext & Hex & _);
    [| | | exists msg'; eexists; split; [reflexivity|]; split; [exact Hnext|]].
  - exact HB.
  - exact Hk.
  - reflexivity.
  - rewrite Hex. reflexivity.
Qed.

(** *** The claims on the sample runs *)

Section Samples.
Import Scenario.

(** Scenario B: previous score 6, current score 10. *)
Lemma calculate_reward_scenario_B :
  calculate_reward 10 (pacman_world_scored STOP 0)
    = (Return 4, pacman_world_scored STOP 0)
  /\ calculate_reward 10 (ghost_world_scored STOP 0)
      = (Return (-4), ghost_world_scored STOP 0).
Proof.
  split.
  - apply (calculate_reward_by_role 10 6 (pacman_world_scored STOP 0));
      reflexivity.
  - apply (calculate_reward_by_role 10 6 (ghost_world_scored STOP 0));
      reflexivity.
Defined.

(** Noise bound 1 on the sample board. *)
Lemma opponent_positions_sample :
  exists msg w',
    create_state_message (sample_state 10) (pacman_world STOP 1)
      = (Return msg, w')
    /\ (forall i x y,
          getGhostPositions (sample_state 10) !! i = Some (x, y) ->
          exists y' x',
            agent_positions msg !! (i + 1)%nat = Some (y', x')
            /\ y - 1 <= y' <= y + 1
            /\ x - 1 <= x' <= x + 1
            /\ (1 = 0 -> (y', x') = (y, x)))
    /\ agent_positions msg !! PACMAN_INDEX = Some (2, 1).
Proof.
  apply (opponent_positions_within_noise (sample_state 10)
           (pacman_world STOP 1) 0).
  - simpl. lia.
  - simpl. discriminate.
  - reflexivity.
Defined.

(** Without noise the ghosts are encoded where they are. *)
Lemma opponent_positions_sample_exact :
  fst (create_state_message (sample_state 10) (pacman_world STOP 0))
    = Return
        {| msg_agent_id := 0;
           agent_positions :=
             <[2%nat := (5, 6)]> (<[1%nat := (4, 3)]> (<[0%nat := (2, 1)]> ∅));
           food_positions := [(1, 0); (0, 1)]%nat;
           fragile_agents :=
             <[2%nat := 0%Q]> (<[1%nat := 1%Q]> (<[0%nat := 0%Q]> ∅));
           wall_positions := [(0, 0)]%nat;
           legal_actions := [NORTH];
           reward := 10;
           executed_action := STOP;
           msg_test_mode := false |}.
Proof. vm_compute. reflexivity. Qed.

Lemma update_keeps_previous_action_sample :
  let w := pacman_world SOUTH 0 in
  let wu := snd (update (sample_state 10) w) in
  let wg := snd (getAction berkeley_Agent_act_when_invalid
                           (sample_state 10) w) in
  fst (update (sample_state 10) w) = Return tt
  /\ previous_action (self wu) = STOP
  /\ previous_score (self wu) = Some 10
  /\ (exists msg,
        sent (client (self wg)) = sent (client (self w)) ++ [State msg]
        /\ previous_action (self wg)
             = action (peer (client (self w)) (sent (client (self wg)))))
  /\ previous_score (self wg) = Some 10.
Proof.
  apply (update_keeps_previous_action berkeley_Agent_act_when_invalid
           (sample_state 10) (pacman_world SOUTH 0) 0).
  - simpl. lia.
  - simpl. discriminate.
  - reflexivity.
Defined.

(** The first hunter is answered [SOUTH] where only [NORTH] is legal. *)
Lemma ghost_getAction_illegal_reply_sample :
  fst (getAction berkeley_Agent_act_when_invalid (sample_state 10)
                 (ghost_world SOUTH 0))
    = Raise (AttributeError "act_when_invalid").
Proof.
  apply (ghost_getAction_illegal_reply_raises
           berkeley_Agent_act_when_invalid (sample_state 10)
           (ghost_world SOUTH 0) 0).
  - simpl. lia.
  - reflexivity.
  - reflexivity.
  - intros history. reflexivity.
Defined.

(** The hunted agent is answered [SOUTH] where only [NORTH] is legal: [STOP]
    is applied, and [SOUTH] is reported as executed. *)
Lemma executed_action_sample :
  exists w1 msg w2,
    getAction berkeley_Agent_act_when_invalid (sample_state 10)
              (pacman_world SOUTH 0) = (Return STOP, w1)
    /\ create_state_message (sample_state 11) w1 = (Return msg, w2)
    /\ executed_action msg = SOUTH.
Proof.
  destruct (executed_action_reports_rejected_reply
              berkeley_Agent_act_when_invalid
              (sample_state 10) (sample_state 11) (pacman_world SOUTH 0) 0)
    as (w1 & msg & w2 & Hact & Hmsg & Hex).
  - simpl. lia.
  - reflexivity.
  - reflexivity.
  - intros history. reflexivity.
  - exists w1, msg, w2. split; [exact Hact|]. split; [exact Hmsg|].
    rewrite Hex. reflexivity.
Defined.

End Samples.

End AdapterProofs.

(** ** Properties of the decision side *)

Module ControllerProofs.
Import Controller Spec.

Section Dispatch.
Context {collaborators : Collaborators}.

Lemma py_in_true (x : Direction) (L : list Direction) :
  py_in x L = true <-> x ∈ L.
Proof.
  unfold py_in. rewrite existsb_exists, list_elem_of_In. split.
  - intros (y & Hy & Hb). apply bool_decide_eq_true in Hb. congruence.
  - intros Hx. exists x. split; [exact Hx | apply bool_decide_eq_true; reflexivity].
Qed.

Lemma py_in_false (x : Direction) (L : list Direction) :
  py_in x L = false <-> x ∉ L.
Proof.
  rewrite <- py_in_true. destruct (py_in x L); split; congruence.
Qed.

(** [random.choice] returns a member of a list that is not empty. *)
Lemma choice_member {A} (L : list A) (g : RandomState) :
  L <> [] ->
  exists d,
    choice L g = (Return d, mkRandom (draws g) (S (cursor g))) /\ d ∈ L.
Proof.
  intros HL. unfold choice, randbelow.
  assert (Hlen : 0 < Z.of_nat (length L)) by (destruct L; [congruence | simpl; lia]).
  pose proof (Z.mod_pos_bound (draws g (cursor g)) _ Hlen) as Hr.
  destruct (lookup_lt_is_Some_2 L (Z.to_nat (draws g (cursor g) mod Z.of_nat (length L))))
    as [d Hd]; [lia|].
  exists d. rewrite Hd. split; [reflexivity|].
  apply list_elem_of_lookup. eauto.
Qed.

(** The last statement of the three [choose_action] methods. *)
Lemma fallback_three_tier (x : Direction) (L : list Direction)
    (g : RandomState) :
  exists d g',
    (if py_in x L then (Return x, g)
     else if is_empty_list L then (Return STOP, g)
     else choice L g) = (Return d, g')
    /\ three_tier x L d.
Proof.
  destruct (py_in x L) eqn:Hin.
  - exists x, g. split; [reflexivity|].
    apply py_in_true in Hin. repeat split; try reflexivity.
    + intros ->. inversion Hin.
    + intros Hnot. contradiction.
  - apply py_in_false in Hin. destruct L as [|y L'].
    + exists STOP, g. split; [reflexivity|]. repeat split; try reflexivity.
      * intros Hx. inversion Hx.
      * intros _ Hne. congruence.
    + destruct (choice_member (y :: L') g) as (d & Hd & Hmem); [discriminate|].
      exists d; eexists. simpl. split; [exact Hd|]. repeat split.
      * intros Hx. contradiction.
      * discriminate.
      * intros _ _. exact Hmem.
Qed.


(** The schedule never divides by zero on a count. *)
Lemma schedule_divisor (k : Q) (n : Z) :
  (0 < k)%Q -> 0 <= n -> Qeq_bool (k + inject_Z n) 0 = false.
Proof.
  intros Hk Hn. apply not_true_is_false. intros H.
  apply Qeq_bool_iff in H.
  assert (Hpos : (0 < k + inject_Z n)%Q).
  { rewrite <- (Qplus_0_r 0). apply Qplus_lt_le_compat; [exact Hk|].
    unfold Qle; simpl. lia. }
  rewrite H in Hpos. apply Qlt_irrefl in Hpos. exact Hpos.
Qed.


(** *** The claims about the controller agents *)


(** C10. With no legal action, the random agents return [None]. *)
Theorem random_agents_return_None
    (state : GameState) (action : Direction) (reward : Z) (explore : bool)
    (g : RandomState) :
  RandomPacmanAgent_choose_action state action reward [] explore g
    = (Return None, g)
  /\ RandomGhostAgent_choose_action state action reward [] explore g
      = (Return None, g).
Proof. split; reflexivity. Qed.

(** With a legal action, they return one. *)
Lemma random_agents_return_member
    (state : GameState) (action : Direction) (reward : Z)
    (L : list Direction) (explore : bool) (g : RandomState) :
  L <> [] ->
  exists d g',
    RandomPacmanAgent_choose_action state action reward L explore g
      = (Return (Some d), g')
    /\ RandomGhostAgent_choose_action state action reward L explore g
        = (Return (Some d), g')
    /\ d ∈ L.
Proof.
  intros HL. destruct (choice_member L g HL) as (d & Hd & Hmem).
  exists d; eexists.
  unfold RandomPacmanAgent_choose_action, RandomGhostAgent_choose_action.
  destruct L; [congruence|]. unfold len_positive; simpl is_empty_list; simpl negb.
  rewrite Hd. repeat split. exact Hmem.
Qed.

Lemma test_mode_calls_act_only
    (state : GameState) (action : Direction) (reward : Z)
    (L : list Direction) (w : World) :
  let core := Learning.set_exploration_rate 0 (learning (self w)) in
  let w' :=
    snd (BehaviorLearningPacmanAgent_choose_action state action reward L
           true w) in
  calls w' = calls w ++ [CallAct core state]
  /\ learning (self w') = (act core state (rng w)).1.2.
Proof.
  unfold BehaviorLearningPacmanAgent_choose_action,
    BehaviorLearningPacmanAgent_enable_test_mode,
    learning_learn, learning_act, bind, set_self, get_self, ret,
    raise, with_random, increment.
  simpl.
  destruct (act _ state (rng w)) as [[b l'] g'] eqn:Hact. simpl.
  destruct (behavior_count (self w) !! behavior_str b); simpl;
    [|split; reflexivity].
  destruct (py_in _ L); [|destruct (is_empty_list L)]; simpl;
    try (split; reflexivity).
  destruct (choice L g'); simpl. split; reflexivity.
Qed.

(** C6. A [choose_action] with [test=True] makes one call on the learning
    core, to [act], on a core whose [exploration_rate] is 0; the core it
    leaves is the one [act] left, so that the weights are unchanged given
    that [act] does not change them. *)
Theorem test_mode_skips_learn
    (state : GameState) (action : Direction) (reward : Z)
    (L : list Direction) (w : World) :
  (forall l s g, Learning.weights (act l s g).1.2 = Learning.weights l) ->
  let wp :=
    snd (BehaviorLearningPacmanAgent_choose_action state action reward L
           true w) in
  let wg :=
    snd (BehaviorLearningGhostAgent_choose_action state action reward L
           true w) in
  (exists core,
     calls wp = calls w ++ [CallAct core state]
     /\ Learning.exploration_rate core = 0%Q
     /\ learning (self wp) = (act core state (rng w)).1.2)
  /\ Learning.weights (learning (self wp)) = Learning.weights (learning (self w))
  /\ (exists core,
       calls wg = calls w ++ [CallAct core state]
       /\ Learning.exploration_rate core = 0%Q
       /\ learning (self wg) = (act core state (rng w)).1.2)
  /\ Learning.weights (learning (self wg)) = Learning.weights (learning (self w)).
Proof.
  intros Hact wp wg.
  assert (Hwg : wg = wp) by reflexivity. rewrite Hwg.
  destruct (test_mode_calls_act_only state action reward L w) as [Hc Hl].
  fold wp in Hc, Hl.
  assert (Hw : Learning.weights (learning (self wp))
               = Learning.weights (learning (self w))).
  { rewrite Hl, Hact. reflexivity. }
  repeat split; try exact Hw; eexists; (split; [exact Hc|]);
    (split; [reflexivity | exact Hl]).
Qed.



(** The constructors set [K] to 1 and [choose_action] never assigns it. *)
Lemma init_K (agent_id : nat) (ally_ids enemy_ids : list nat) :
  K (BehaviorLearningPacmanAgent_init agent_id ally_ids enemy_ids) = 1%Q
  /\ K (BehaviorLearningGhostAgent_init agent_id ally_ids enemy_ids) = 1%Q.
Proof. split; reflexivity. Qed.

Lemma choose_action_keeps_K
    (state : GameState) (action : Direction) (reward : Z)
    (L : list Direction) (test : bool) (w : World) :
  K (self (snd (BehaviorLearningPacmanAgent_choose_action state action
                  reward L test w))) = K (self w).
Proof.
  unfold BehaviorLearningPacmanAgent_choose_action,
    BehaviorLearningPacmanAgent_enable_test_mode,
    BehaviorLearningPacmanAgent_enable_learn_mode,
    learning_learn, learning_act, py_div, bind, set_self, get_self, ret,
    raise, with_random, increment.
  destruct test; simpl.
  - destruct (act _ state (rng w)) as [[b l'] g']. simpl.
    destruct (behavior_count (self w) !! behavior_str b); simpl;
      [|reflexivity].
    destruct (py_in _ L); [|destruct (is_empty_list L)]; simpl;
      try reflexivity.
    destruct (choice L g'); reflexivity.
  - destruct (Qeq_bool _ 0); simpl; [reflexivity|].
    destruct (act _ state (rng w)) as [[b l'] g']. simpl.
    destruct (behavior_count (self w) !! behavior_str b); simpl;
      [|reflexivity].
    destruct (py_in _ L); [|destruct (is_empty_list L)]; simpl;
      try reflexivity.
    destruct (choice L g'); reflexivity.
Qed.

End Dispatch.

(** *** The claims on the sample agents *)

Section Samples.
Import ControllerScenario.

(** Every behavior of the sample has a counter in the hunted learner. *)
Lemma pacman_learner_counts (b : SampleBehavior) :
  is_Some (behavior_count (self pacman_learner) !! sample_str b).
Proof. destruct b; vm_compute; eexists; reflexivity. Qed.


(** The eater suggests [EAST] there and is answered [STOP]: the first raw
    draw of the sample generator is odd. *)
Lemma eater_scenario_A :
  fst (@EaterPacmanAgent_choose_action sample_collaborators sample_eater 9 STOP 4 [NORTH; STOP]
         false Scenario.sample_random) = Return STOP.
Proof. reflexivity. Qed.

Lemma test_mode_sample :
  let wp :=
    snd (@BehaviorLearningPacmanAgent_choose_action sample_collaborators 9 STOP 4 [NORTH; STOP]
           true pacman_learner) in
  let wg :=
    snd (@BehaviorLearningGhostAgent_choose_action sample_collaborators 9 STOP 4 [NORTH; STOP]
           true pacman_learner) in
  (exists core,
     calls wp = calls pacman_learner ++ [@CallAct sample_collaborators core 9]
     /\ Learning.exploration_rate core = 0%Q
     /\ learning (self wp) = (@act sample_collaborators core 9 (rng pacman_learner)).1.2)
  /\ Learning.weights (learning (self wp))
       = Learning.weights (learning (self pacman_learner))
  /\ (exists core,
       calls wg = calls pacman_learner ++ [@CallAct sample_collaborators core 9]
       /\ Learning.exploration_rate core = 0%Q
       /\ learning (self wg) = (@act sample_collaborators core 9 (rng pacman_learner)).1.2)
  /\ Learning.weights (learning (self wg))
       = Learning.weights (learning (self pacman_learner)).
Proof.
  apply (@test_mode_skips_learn sample_collaborators 9 STOP 4 [NORTH; STOP]
           pacman_learner).
  intros l s g. reflexivity.
Defined.


End Samples.

End ControllerProofs.

(** ** Further properties of the environment side *)

Module AdapterExtras.
Import Adapter Spec AdapterProofs.

(** *** The loops of the encoding *)

Lemma row_loop_member (x : nat) (row : list bool) :
  forall (y0 : nat) (acc : list (nat * nat)) (b a : nat),
    (b, a) ∈ row_loop x y0 row acc
    <-> (b, a) ∈ acc
        \/ (a = x /\ (y0 <= b)%nat /\ row !! (b - y0)%nat = Some true).
Proof.
  induction row as [|c rest IH]; intros y0 acc b a; simpl.
  - split; [auto|]. intros [H|(_ & _ & H)]; [exact H|].
    rewrite lookup_nil in H. discriminate.
  - rewrite IH. split.
    + intros [Hacc|(-> & Hle & Hlook)].
      * destruct c; [|auto].
        apply elem_of_app in Hacc as [Hacc|Hnew]; [auto|].
        apply list_elem_of_singleton in Hnew. injection Hnew as -> ->.
        right. repeat split; [lia|]. rewrite Nat.sub_diag. reflexivity.
      * right. repeat split; [lia|].
        replace (b - y0)%nat with (S (b - S y0)) by lia. exact Hlook.
    + intros [Hacc|(-> & Hle & Hlook)].
      * left. destruct c; [apply elem_of_app; auto | exact Hacc].
      * destruct (decide (b = y0)) as [->|Hne].
        -- rewrite Nat.sub_diag in Hlook. simpl in Hlook.
           injection Hlook as ->. left. apply elem_of_app. right.
           apply list_elem_of_singleton. reflexivity.
        -- right. repeat split; [lia|].
           replace (b - y0)%nat with (S (b - S y0)) in Hlook by lia.
           exact Hlook.
Qed.

Lemma grid_loop_member (grid : list (list bool)) :
  forall (x0 : nat) (acc : list (nat * nat)) (b a : nat),
    (b, a) ∈ grid_loop x0 grid acc
    <-> (b, a) ∈ acc
        \/ ((x0 <= a)%nat /\ cell grid (a - x0) b = true).
Proof.
  induction grid as [|row rest IH]; intros x0 acc b a; simpl.
  - split; [auto|]. intros [H|(_ & H)]; [exact H|]. discriminate.
  - rewrite IH, row_loop_member. unfold cell. split.
    + intros [[Hacc|(-> & _ & Hlook)]|(Hle & Hcell)].
      * auto.
      * right. split; [lia|]. rewrite Nat.sub_diag. simpl.
        rewrite Nat.sub_0_r in Hlook. rewrite Hlook. reflexivity.
      * right. split; [lia|].
        replace (a - x0)%nat with (S (a - S x0)) by lia. exact Hcell.
    + intros [Hacc|(Hle & Hcell)]; [auto|].
      destruct (decide (a = x0)) as [->|Hne].
      * left. right. repeat split; [lia|].
        rewrite Nat.sub_diag in Hcell. simpl in Hcell.
        rewrite Nat.sub_0_r. destruct (row !! b) as [[|]|]; congruence.
      * right. split; [lia|].
        replace (a - x0)%nat with (S (a - S x0)) in Hcell by lia.
        exact Hcell.
Qed.

Lemma fragile_loop_lookup (states : list AgentState) :
  forall (id_ : nat) (acc : gmap nat Q) (j : nat),
    fragile_loop id_ states acc !! j
    = if decide (j < id_)%nat then acc !! j
      else match states !! (j - id_)%nat with
           | Some s => Some (fragility s)
           | None => acc !! j
           end.
Proof.
  induction states as [|s rest IH]; intros id_ acc j; simpl.
  - destruct (decide _); reflexivity.
  - rewrite IH. destruct (decide (j < S id_)%nat) as [Hlt|Hge].
    + destruct (decide (j < id_)%nat) as [Hlt'|Hge'].
      * apply lookup_insert_ne. lia.
      * assert (j = id_) as -> by lia. rewrite Nat.sub_diag. simpl.
        rewrite lookup_insert_eq. reflexivity.
    + destruct (decide (j < id_)%nat) as [Hlt'|Hge']; [lia|].
      replace (j - id_)%nat with (S (j - S id_)) by lia. simpl.
      destruct (rest !! (j - S id_)%nat); [reflexivity|].
      apply lookup_insert_ne. lia.
Qed.

Lemma noise_error_draws (w : World) :
  0 <= NOISE w ->
  exists r,
    noise_error w
      = (Return r,
         mkWorld (self w) (NOISE w)
                 (mkRandom (draws (rng w)) (S (cursor (rng w))))).
Proof.
  intros HB. destruct (randrange_symmetric (NOISE w) (rng w) HB) as (r & Hr & _).
  exists r. unfold noise_error, bind, get_NOISE, with_random.
  rewrite Hr. reflexivity.
Qed.

(** The loop over the ghosts draws twice per ghost and writes the keys
    right above its starting key, and no other. *)
Lemma ghost_positions_loop_keys (ghosts : list (Z * Z)) :
  forall (id_ : nat) (acc : gmap nat (Z * Z)) (w : World),
    0 <= NOISE w ->
    exists m,
      ghost_positions_loop id_ ghosts acc w
        = (Return m,
           mkWorld (self w) (NOISE w)
                   (mkRandom (draws (rng w))
                             (cursor (rng w) + 2 * length ghosts)))
      /\ (forall j, (j <= id_ \/ id_ + length ghosts < j)%nat ->
            m !! j = acc !! j)
      /\ (forall j, (id_ < j <= id_ + length ghosts)%nat ->
            is_Some (m !! j)).
Proof.
  induction ghosts as [|[x0 y0] rest IH]; intros id_ acc w HB.
  - exists acc. destruct w as [a n [d c]]; simpl.
    rewrite Nat.add_0_r. split; [reflexivity|]. split; [reflexivity|].
    intros j Hj. lia.
  - destruct (noise_error_draws w HB) as (ny & Hy).
    set (w1 := mkWorld (self w) (NOISE w)
                       (mkRandom (draws (rng w)) (S (cursor (rng w))))) in *.
    destruct (noise_error_draws w1 HB) as (nx & Hx).
    set (w2 := mkWorld (self w1) (NOISE w1)
                       (mkRandom (draws (rng w1)) (S (cursor (rng w1))))) in *.
    destruct (IH (S id_) (<[(id_ + 1)%nat := (y0 + ny, x0 + nx)]> acc) w2 HB)
      as (m & Hrun & Hkeep & Hnew).
    exists m. split; [|split].
    + simpl. unfold bind at 1. rewrite Hy. unfold bind at 1. rewrite Hx.
      rewrite Hrun. simpl. do 3 f_equal. lia.
    + intros j Hj. simpl in Hj. rewrite Hkeep by lia.
      apply lookup_insert_ne. lia.
    + intros j Hj. simpl in Hj.
      destruct (decide (j = id_ + 1)%nat) as [->|Hne].
      * rewrite Hkeep by lia. rewrite lookup_insert_eq. eauto.
      * apply Hnew. lia.
Qed.

(** What encoding a state returns and leaves, in full, once a score was
    recorded and [NOISE] is not negative. *)
Lemma create_state_message_full (state : GameState) (w : World) (p : Z) :
  0 <= NOISE w ->
  klass (self w) <> AdapterAgentClass ->
  previous_score (self w) = Some p ->
  exists positions,
    create_state_message state w
      = (Return
           {| msg_agent_id := agent_id (self w);
              agent_positions := positions;
              food_positions := grid_loop 0 (getFood state) [];
              fragile_agents := fragile_loop 0 (agentStates state) ∅;
              wall_positions := grid_loop 0 (getWalls state) [];
              legal_actions := getLegalActions state (agent_id (self w));
              reward := reward_of (klass (self w)) p (getScore state);
              executed_action := previous_action (self w);
              msg_test_mode := test_mode (self w) |},
         mkWorld (set_previous_score (getScore state) (self w)) (NOISE w)
                 (mkRandom (draws (rng w))
                    (cursor (rng w) + 2 * length (getGhostPositions state))))
    /\ (forall j, is_Some (positions !! j)
                  <-> (j <= length (getGhostPositions state))%nat).
Proof.
  intros HB Hk Hp.
  destruct (ghost_positions_loop_keys (getGhostPositions state) 0
              (<[PACMAN_INDEX := swap_axes (getPacmanPosition state)]> ∅)
              w HB) as (m & Hloop & Hkeep & Hnew).
  exists m. split.
  - unfold create_state_message. unfold bind at 1. rewrite Hloop.
    unfold bind at 1.
    rewrite (calculate_reward_returns _ _ p); simpl; try assumption.
    reflexivity.
  - intros j. split.
    + intros Hsome. destruct (decide (j <= length (getGhostPositions state))%nat)
        as [Hle|Hgt]; [exact Hle|].
      rewrite Hkeep in Hsome by lia.
      rewrite lookup_insert_ne in Hsome by (unfold PACMAN_INDEX; lia).
      rewrite lookup_empty in Hsome. destruct Hsome; discriminate.
    + intros Hle. destruct j as [|j].
      * rewrite Hkeep by lia. unfold PACMAN_INDEX.
        rewrite lookup_insert_eq. eauto.
      * apply Hnew. lia.
Qed.

(** *** Starting a game *)

(** X1. [start_game] never raises; it sends one game-start message with the
    agent's id and the layout's size. Whatever the agent did before, the
    first state encoded afterwards reports [STOP] as executed action and a
    reward counted from score 0: the score itself for the hunted agent, its
    opposite for a hunter. *)
Theorem start_game_then_encode
    (layout : Layout) (state : GameState) (w : World) :
  0 <= NOISE w ->
  klass (self w) <> AdapterAgentClass ->
  let w1 := snd (start_game layout w) in
  fst (start_game layout w) = Return tt
  /\ sent (client (self w1))
     = sent (client (self w))
       ++ [GameStart {| start_agent_id := agent_id (self w);
                        map_width := width layout;
                        map_height := height layout |}]
  /\ exists msg w2,
       create_state_message state w1 = (Return msg, w2)
       /\ executed_action msg = STOP
       /\ reward msg = reward_of (klass (self w)) 0 (getScore state).
Proof.
  intros HB Hk w1. split; [reflexivity|]. split; [reflexivity|].
  destruct (create_state_message_full state w1 0) as (m & Hrun & _);
    [exact HB | exact Hk | reflexivity |].
  eexists; eexists. split; [exact Hrun|]. split; reflexivity.
Qed.

(** X2. An agent that was constructed but never started has no recorded
    score: its first [update] or [getAction] raises [AttributeError], sends
    nothing and leaves the agent as it was. *)
Theorem exchange_before_start_game_raises
    berkeley (state : GameState) (w : World) :
  0 <= NOISE w ->
  klass (self w) <> AdapterAgentClass ->
  previous_score (self w) = None ->
  fst (update state w) = Raise (AttributeError "previous_score")
  /\ fst (getAction berkeley state w) = Raise (AttributeError "previous_score")
  /\ self (snd (update state w)) = self w
  /\ self (snd (getAction berkeley state w)) = self w.
Proof.
  intros HB Hk Hp.
  destruct (ghost_positions_loop_keys (getGhostPositions state) 0
              (<[PACMAN_INDEX := swap_axes (getPacmanPosition state)]> ∅)
              w HB) as (m & Hloop & _).
  assert (Hmsg : exists g',
            create_state_message state w
              = (Raise (AttributeError "previous_score"),
                 mkWorld (self w) (NOISE w) g')).
  { eexists. unfold create_state_message. unfold bind at 1. rewrite Hloop.
    unfold bind at 1, calculate_reward, bind, get_self. simpl.
    destruct (klass (self w)); [congruence | |]; rewrite Hp; reflexivity. }
  destruct Hmsg as (g' & Hmsg).
  unfold update, getAction, bind. rewrite Hmsg. repeat split.
Qed.

(** X3. With a negative [NOISE] and at least one ghost, encoding raises
    [ValueError] at the first draw; [update] and [getAction] raise with it,
    and nothing at all has changed. *)
Theorem negative_noise_raises berkeley (state : GameState) (w : World) :
  NOISE w < 0 ->
  getGhostPositions state <> [] ->
  let failure := ValueError "empty range for randrange()" in
  create_state_message state w = (Raise failure, w)
  /\ update state w = (Raise failure, w)
  /\ getAction berkeley state w = (Raise failure, w).
Proof.
  intros HB Hghosts failure.
  assert (Hmsg : create_state_message state w = (Raise failure, w)).
  { unfold create_state_message. unfold bind at 1.
    destruct (getGhostPositions state) as [|pos rest]; [congruence|].
    simpl. unfold bind at 1, noise_error, bind, get_NOISE, with_random,
      randrange.
    assert (Hw : (0 <? NOISE w + 1 - - NOISE w) = false)
      by (apply Z.ltb_ge; lia).
    rewrite Hw. destruct w; reflexivity. }
  split; [exact Hmsg|].
  unfold update, getAction, bind. rewrite Hmsg. split; reflexivity.
Qed.

(** *** What a state message holds *)

(** X4. A position [(y, x)] is listed as food exactly when the food grid
    holds true at column [x], row [y], and likewise for the walls. *)
Theorem food_and_wall_positions_exact
    (state : GameState) (w : World) (p : Z) :
  0 <= NOISE w ->
  klass (self w) <> AdapterAgentClass ->
  previous_score (self w) = Some p ->
  exists msg w',
    create_state_message state w = (Return msg, w')
    /\ (forall x y, (y, x) ∈ food_positions msg
                    <-> cell (getFood state) x y = true)
    /\ (forall x y, (y, x) ∈ wall_positions msg
                    <-> cell (getWalls state) x y = true).
Proof.
  intros HB Hk Hp.
  destruct (create_state_message_full state w p HB Hk Hp) as (m & Hrun & _).
  eexists; eexists. split; [exact Hrun|]. simpl.
  split; intros x y; rewrite grid_loop_member, Nat.sub_0_r; split.
  - intros [H|[_ H]]; [inversion H | exact H].
  - intros H. right. split; [lia | exact H].
  - intros [H|[_ H]]; [inversion H | exact H].
  - intros H. right. split; [lia | exact H].
Qed.

(** X5. The fragility map has one entry per agent state, at the agent's
    index: 1 when its scared timer is positive, 0 otherwise. *)
Theorem fragile_agents_exact (state : GameState) (w : World) (p : Z) :
  0 <= NOISE w ->
  klass (self w) <> AdapterAgentClass ->
  previous_score (self w) = Some p ->
  exists msg w',
    create_state_message state w = (Return msg, w')
    /\ forall i, fragile_agents msg !! i
                 = fragility <$> (agentStates state !! i).
Proof.
  intros HB Hk Hp.
  destruct (create_state_message_full state w p HB Hk Hp) as (m & Hrun & _).
  eexists; eexists. split; [exact Hrun|]. simpl. intros i.
  rewrite fragile_loop_lookup, Nat.sub_0_r.
  destruct (decide (i < 0)%nat); [lia|].
  destruct (agentStates state !! i); reflexivity.
Qed.

(** X6. The position map has the keys 0 to the number of ghosts, and no
    other: one entry for the hunted agent and one per ghost. *)
Theorem agent_positions_keys (state : GameState) (w : World) (p : Z) :
  0 <= NOISE w ->
  klass (self w) <> AdapterAgentClass ->
  previous_score (self w) = Some p ->
  exists msg w',
    create_state_message state w = (Return msg, w')
    /\ forall j, is_Some (agent_positions msg !! j)
                 <-> (j <= length (getGhostPositions state))%nat.
Proof.
  intros HB Hk Hp.
  destruct (create_state_message_full state w p HB Hk Hp) as (m & Hrun & Hkeys).
  eexists; eexists. split; [exact Hrun | exact Hkeys].
Qed.

(** X7. Encoding a state sends nothing and assigns no attribute but
    [previous_score]; it leaves [NOISE] alone and takes exactly two draws
    per ghost from the generator. *)
Theorem create_state_message_frame (state : GameState) (w : World) (p : Z) :
  0 <= NOISE w ->
  klass (self w) <> AdapterAgentClass ->
  previous_score (self w) = Some p ->
  snd (create_state_message state w)
  = mkWorld (set_previous_score (getScore state) (self w)) (NOISE w)
            (mkRandom (draws (rng w))
               (cursor (rng w) + 2 * length (getGhostPositions state))).
Proof.
  intros HB Hk Hp.
  destruct (create_state_message_full state w p HB Hk Hp) as (m & Hrun & _).
  rewrite Hrun. reflexivity.
Qed.

(** *** Runs of exchanges *)

Lemma update_full (state : GameState) (w : World) (p : Z) :
  0 <= NOISE w ->
  klass (self w) <> AdapterAgentClass ->
  previous_score (self w) = Some p ->
  exists msg g',
    update state w
      = (Return tt,
         mkWorld (set_client (send (State msg) (client (self w)))
                    (set_previous_score (getScore state) (self w)))
                 (NOISE w) g')
    /\ reward msg = reward_of (klass (self w)) p (getScore state)
    /\ executed_action msg = previous_action (self w).
Proof.
  intros HB Hk Hp.
  destruct (create_state_message_full state w p HB Hk Hp) as (m & Hrun & _).
  eexists; eexists. rewrite (update_unfold state w _ _ Hrun).
  repeat split.
Qed.

Lemma reward_of_chain (cls : AdapterClass) (a b c : Z) :
  reward_of cls a b + reward_of cls b c = reward_of cls a c.
Proof. destruct cls; simpl; lia. Qed.

(** X8. A run of [update]s over any list of states returns; it sends one
    state message per state, in order and after what was sent before; every
    message reports the same executed action; and the rewards of the run
    add up to the change from the score recorded before the run to the
    score of the last state, counted with the sign of the agent's role. *)
Theorem push_states_rewards_telescope (states : list GameState) :
  forall (w : World) (p : Z),
    0 <= NOISE w ->
    klass (self w) <> AdapterAgentClass ->
    previous_score (self w) = Some p ->
    exists msgs w',
      push_states states w = (Return tt, w')
      /\ sent (client (self w')) = sent (client (self w)) ++ (State <$> msgs)
      /\ length msgs = length states
      /\ Forall (fun m => executed_action m = previous_action (self w)) msgs
      /\ total (reward <$> msgs)
         = reward_of (klass (self w)) p
             (default p (last (getScore <$> states)))
      /\ previous_score (self w')
         = Some (default p (last (getScore <$> states))).
Proof.
  induction states as [|state rest IH]; intros w p HB Hk Hp.
  - exists [], w. simpl. rewrite app_nil_r.
    repeat split; [constructor | destruct (klass (self w)); simpl; lia
                  | exact Hp].
  - destruct (update_full state w p HB Hk Hp) as (msg & g' & Hrun & Hr & He).
    set (w1 := mkWorld (set_client (send (State msg) (client (self w)))
                          (set_previous_score (getScore state) (self w)))
                       (NOISE w) g') in *.
    destruct (IH w1 (getScore state)) as
      (msgs & w' & Hrest & Hsent & Hlen & Hex & Htot & Hscore);
      [exact HB | exact Hk | reflexivity |].
    exists (msg :: msgs), w'.
    assert (Hlast : default p (last (getScore <$> state :: rest))
                    = default (getScore state) (last (getScore <$> rest))).
    { rewrite fmap_cons, last_cons.
      destruct (last (getScore <$> rest)); reflexivity. }
    rewrite Hlast. split; [|split; [|split; [|split; [|split]]]].
    + simpl. unfold bind at 1. rewrite Hrun. exact Hrest.
    + rewrite Hsent. simpl. rewrite <- app_assoc. reflexivity.
    + simpl. rewrite Hlen. reflexivity.
    + constructor; [exact He | exact Hex].
    + change (total (reward <$> msg :: msgs))
        with (reward msg + total (reward <$> msgs)).
      rewrite Htot, Hr. apply reward_of_chain.
    + exact Hscore.
Qed.

(** *** The test-mode flag *)

Lemma noise_error_any_self (N : Z) (g : RandomState) :
  0 <= N ->
  exists r, forall a : AdapterAgent,
    noise_error (mkWorld a N g)
    = (Return r, mkWorld a N (mkRandom (draws g) (S (cursor g)))).
Proof.
  intros HB. destruct (randrange_symmetric N g HB) as (r & Hr & _).
  exists r. intros a. unfold noise_error, bind, get_NOISE, with_random.
  simpl. rewrite Hr. reflexivity.
Qed.

(** The positions the loop computes do not depend on [self]. *)
Lemma ghost_positions_loop_any_self (ghosts : list (Z * Z)) :
  forall id_ acc (N : Z) (g : RandomState),
    0 <= N ->
    exists m, forall a : AdapterAgent,
      ghost_positions_loop id_ ghosts acc (mkWorld a N g)
      = (Return m,
         mkWorld a N (mkRandom (draws g) (cursor g + 2 * length ghosts))).
Proof.
  induction ghosts as [|[x0 y0] rest IH]; intros id_ acc N g HB.
  - exists acc. intros a. destruct g as [d c]. simpl.
    rewrite Nat.add_0_r. reflexivity.
  - destruct (noise_error_any_self N g HB) as (ny & Hy).
    destruct (noise_error_any_self N (mkRandom (draws g) (S (cursor g))) HB)
      as (nx & Hx).
    destruct (IH (S id_) (<[(id_ + 1)%nat := (y0 + ny, x0 + nx)]> acc) N
                 (mkRandom (draws g) (S (S (cursor g)))) HB) as (m & Hm).
    exists m. intros a. simpl.
    unfold bind at 1. rewrite Hy. unfold bind at 1. rewrite Hx.
    simpl in Hm |- *. rewrite Hm. do 3 f_equal. lia.
Qed.

(** X9. The mode switches never raise and assign [test_mode] only. The
    flag is carried by the next message and changes nothing else in it: the
    message encoded after [enable_test_mode] is the one encoded after
    [enable_learn_mode] with the flag set. *)
Theorem test_mode_only_sets_the_flag
    (state : GameState) (w : World) (p : Z) :
  0 <= NOISE w ->
  klass (self w) <> AdapterAgentClass ->
  previous_score (self w) = Some p ->
  enable_test_mode w
    = (Return tt, mkWorld (set_test_mode true (self w)) (NOISE w) (rng w))
  /\ enable_learn_mode w
     = (Return tt, mkWorld (set_test_mode false (self w)) (NOISE w) (rng w))
  /\ exists msg_learn,
       fst (create_state_message state (snd (enable_learn_mode w)))
         = Return msg_learn
       /\ msg_test_mode msg_learn = false
       /\ fst (create_state_message state (snd (enable_test_mode w)))
          = Return (with_test_mode true msg_learn).
Proof.
  intros HB Hk Hp. split; [reflexivity|]. split; [reflexivity|].
  unfold enable_learn_mode, enable_test_mode, set_self. simpl.
  destruct (ghost_positions_loop_any_self (getGhostPositions state) 0
              (<[PACMAN_INDEX := swap_axes (getPacmanPosition state)]> ∅)
              (NOISE w) (rng w) HB) as (m & Hloop).
  assert (Hmsg : forall b,
    fst (create_state_message state
           (mkWorld (set_test_mode b (self w)) (NOISE w) (rng w)))
    = Return
        {| msg_agent_id := agent_id (self w);
           agent_positions := m;
           food_positions := grid_loop 0 (getFood state) [];
           fragile_agents := fragile_loop 0 (agentStates state) ∅;
           wall_positions := grid_loop 0 (getWalls state) [];
           legal_actions := getLegalActions state (agent_id (self w));
           reward := reward_of (klass (self w)) p (getScore state);
           executed_action := previous_action (self w);
           msg_test_mode := b |}).
  { intros b. unfold create_state_message. unfold bind at 1.
    rewrite Hloop. unfold bind at 1.
    rewrite (calculate_reward_returns _ _ p); simpl; try assumption.
    reflexivity. }
  eexists. split; [apply Hmsg|]. split; [reflexivity|]. apply Hmsg.
Qed.

(** *** Checking the reply *)

(** X10. After [getAction] got its reply, [invalid_action] tells whether
    the reply was outside the legal actions of the state, for either role;
    a legal reply is what [getAction] returns. *)
Theorem getAction_records_validity
    berkeley (state : GameState) (w : World) (p : Z) :
  0 <= NOISE w ->
  klass (self w) <> AdapterAgentClass ->
  previous_score (self w) = Some p ->
  exists msg,
    let reply :=
      action (peer (client (self w))
                   (sent (client (self w)) ++ [State msg])) in
    let legal := py_in reply (getLegalActions state (agent_id (self w))) in
    invalid_action (self (snd (getAction berkeley state w)))
      = Some (negb legal)
    /\ (legal = true -> fst (getAction berkeley state w) = Return reply).
Proof.
  intros HB Hk Hp.
  destruct (create_state_message_full state w p HB Hk Hp) as (m & Hrun & _).
  match type of Hrun with _ = (Return ?msg, _) => exists msg end.
  rewrite (getAction_unfold berkeley state w _ _ Hrun).
  unfold after_exchange at 1 2 3. simpl. unfold receive. simpl.
  destruct (py_in _ _) eqn:Hlegal; simpl.
  - split; [reflexivity|]. intros _. reflexivity.
  - split; [|discriminate].
    unfold act_when_invalid, bind, get_self. simpl.
    destruct (klass (self w)); try destruct berkeley; reflexivity.
Qed.



(** *** The properties on the sample runs *)

Section Samples.
Import Scenario.

(** A hunter leaves its constructor with [NORTH] as previous action, and
    still reports [STOP] first; its reward for a first score of 10 is -10. *)
Lemma start_game_then_encode_sample :
  previous_action (self (unstarted_ghost 0)) = NORTH
  /\ let w1 := snd (start_game sample_layout (unstarted_ghost 0)) in
     fst (start_game sample_layout (unstarted_ghost 0)) = Return tt
     /\ sent (client (self w1))
        = [] ++ [GameStart {| start_agent_id := 1;
                              map_width := 2; map_height := 2 |}]
     /\ exists msg w2,
          create_state_message (sample_state 10) w1 = (Return msg, w2)
          /\ executed_action msg = STOP
          /\ reward msg = -10.
Proof.
  split; [reflexivity|].
  apply (start_game_then_encode sample_layout (sample_state 10)
           (unstarted_ghost 0)).
  - simpl. lia.
  - simpl. discriminate.
Defined.

Lemma exchange_before_start_game_sample :
  let w := unstarted_pacman 0 in
  fst (update (sample_state 10) w) = Raise (AttributeError "previous_score")
  /\ fst (getAction berkeley_Agent_act_when_invalid (sample_state 10) w)
     = Raise (AttributeError "previous_score")
  /\ self (snd (update (sample_state 10) w)) = self w
  /\ self (snd (getAction berkeley_Agent_act_when_invalid
                          (sample_state 10) w)) = self w.
Proof.
  apply (exchange_before_start_game_raises berkeley_Agent_act_when_invalid
           (sample_state 10) (unstarted_pacman 0)).
  - simpl. lia.
  - simpl. discriminate.
  - reflexivity.
Defined.

Lemma negative_noise_sample :
  let w := pacman_world STOP (-1) in
  let failure := ValueError "empty range for randrange()" in
  create_state_message (sample_state 10) w = (Raise failure, w)
  /\ update (sample_state 10) w = (Raise failure, w)
  /\ getAction berkeley_Agent_act_when_invalid (sample_state 10) w
     = (Raise failure, w).
Proof.
  apply (negative_noise_raises berkeley_Agent_act_when_invalid
           (sample_state 10) (pacman_world STOP (-1))).
  - simpl. lia.
  - simpl. discriminate.
Defined.

Lemma food_and_wall_positions_sample :
  exists msg w',
    create_state_message (sample_state 10) (pacman_world STOP 1)
      = (Return msg, w')
    /\ (forall x y, (y, x) ∈ food_positions msg
                    <-> cell (getFood (sample_state 10)) x y = true)
    /\ (forall x y, (y, x) ∈ wall_positions msg
                    <-> cell (getWalls (sample_state 10)) x y = true).
Proof.
  apply (food_and_wall_positions_exact (sample_state 10)
           (pacman_world STOP 1) 0).
  - simpl. lia.
  - simpl. discriminate.
  - reflexivity.
Defined.

Lemma fragile_agents_sample :
  exists msg w',
    create_state_message (sample_state 10) (pacman_world STOP 1)
      = (Return msg, w')
    /\ forall i, fragile_agents msg !! i
                 = fragility <$> (agentStates (sample_state 10) !! i).
Proof.
  apply (fragile_agents_exact (sample_state 10) (pacman_world STOP 1) 0).
  - simpl. lia.
  - simpl. discriminate.
  - reflexivity.
Defined.

Lemma agent_positions_keys_sample :
  exists msg w',
    create_state_message (sample_state 10) (pacman_world STOP 1)
      = (Return msg, w')
    /\ forall j, is_Some (agent_positions msg !! j) <-> (j <= 2)%nat.
Proof.
  apply (agent_positions_keys (sample_state 10) (pacman_world STOP 1) 0).
  - simpl. lia.
  - simpl. discriminate.
  - reflexivity.
Defined.

(** Two ghosts: four draws. *)
Lemma create_state_message_frame_sample :
  let w := pacman_world STOP 1 in
  snd (create_state_message (sample_state 10) w)
  = mkWorld (set_previous_score 10 (self w)) 1
            (mkRandom (draws sample_random) 4).
Proof.
  apply (create_state_message_frame (sample_state 10)
           (pacman_world STOP 1) 0).
  - simpl. lia.
  - simpl. discriminate.
  - reflexivity.
Defined.

(** Scores 6, 10, 7 after a start at 0: the hunter's rewards add up to -7. *)
Lemma push_states_sample :
  let w := ghost_world STOP 0 in
  exists msgs w',
    push_states sample_run w = (Return tt, w')
    /\ sent (client (self w')) = sent (client (self w)) ++ (State <$> msgs)
    /\ length msgs = 3%nat
    /\ Forall (fun m => executed_action m = STOP) msgs
    /\ total (reward <$> msgs) = -7
    /\ previous_score (self w') = Some 7.
Proof.
  apply (push_states_rewards_telescope sample_run (ghost_world STOP 0) 0).
  - simpl. lia.
  - simpl. discriminate.
  - reflexivity.
Defined.

Lemma test_mode_sample_flag :
  let w := pacman_world STOP 0 in
  enable_test_mode w
    = (Return tt, mkWorld (set_test_mode true (self w)) (NOISE w) (rng w))
  /\ enable_learn_mode w
     = (Return tt, mkWorld (set_test_mode false (self w)) (NOISE w) (rng w))
  /\ exists msg_learn,
       fst (create_state_message (sample_state 10)
              (snd (enable_learn_mode w))) = Return msg_learn
       /\ msg_test_mode msg_learn = false
       /\ fst (create_state_message (sample_state 10)
                 (snd (enable_test_mode w)))
          = Return (with_test_mode true msg_learn).
Proof.
  apply (test_mode_only_sets_the_flag (sample_state 10)
           (pacman_world STOP 0) 0).
  - simpl. lia.
  - simpl. discriminate.
  - reflexivity.
Defined.

(** The reply [SOUTH] where only [NORTH] is legal is recorded as invalid. *)
Lemma getAction_records_validity_sample :
  let w := pacman_world SOUTH 0 in
  exists msg,
    let reply :=
      action (peer (client (self w))
                   (sent (client (self w)) ++ [State msg])) in
    let legal := py_in reply [NORTH] in
    invalid_action (self (snd (getAction berkeley_Agent_act_when_invalid
                                         (sample_state 10) w)))
      = Some (negb legal)
    /\ (legal = true ->
        fst (getAction berkeley_Agent_act_when_invalid (sample_state 10) w)
          = Return reply).
Proof.
  apply (getAction_records_validity berkeley_Agent_act_when_invalid
           (sample_state 10) (pacman_world SOUTH 0) 0).
  - simpl. lia.
  - simpl. discriminate.
  - reflexivity.
Defined.



End Samples.

End AdapterExtras.

(** ** Further properties of the decision side *)

Module ControllerExtras.
Import Controller Spec ControllerSpec ControllerProofs.

Section Learners.
Context {collaborators : Collaborators}.

Lemma reset_loop_lookup (bs : list Behavior) :
  forall (count : gmap string nat) (k : string),
    reset_loop bs count !! k
    = if decide (k ∈ behavior_str <$> bs) then Some 0%nat else count !! k.
Proof.
  induction bs as [|b rest IH]; intros count k; cbn [reset_loop].
  - destruct (decide _) as [H|_]; [inversion H | reflexivity].
  - rewrite IH, fmap_cons.
    destruct (decide (k ∈ behavior_str <$> rest)) as [Hin|Hout].
    + destruct (decide _) as [_|H]; [reflexivity|].
      exfalso. apply H. right. exact Hin.
    + destruct (decide (k = behavior_str b)) as [->|Hne].
      * rewrite lookup_insert_eq.
        destruct (decide _) as [_|H]; [reflexivity|].
        exfalso. apply H. left.
      * rewrite lookup_insert_ne by congruence.
        destruct (decide _) as [H|_]; [|reflexivity].
        apply elem_of_cons in H as [H|H]; congruence.
Qed.

(** X13. [reset_behavior_count] puts the counter of every behavior of the
    agent back to 0 and leaves every other key of the dictionary alone. *)
Theorem reset_behavior_count_lookup (a : BehaviorLearningAgent) (k : string) :
  behavior_count (reset_behavior_count a) !! k
  = if decide (k ∈ behavior_str <$> behaviors a) then Some 0%nat
    else behavior_count a !! k.
Proof. apply reset_loop_lookup. Qed.

(** X14. Both constructors leave a well-formed agent: [K] is positive, the
    core chooses among the agent's behaviors, every behavior has its usage
    counter, and all counters are 0. *)
Theorem constructors_well_formed
    (agent_id : nat) (ally_ids enemy_ids : list nat) :
  let pacman := BehaviorLearningPacmanAgent_init agent_id ally_ids enemy_ids in
  let ghost := BehaviorLearningGhostAgent_init agent_id ally_ids enemy_ids in
  well_formed pacman
  /\ well_formed ghost
  /\ (forall k n, behavior_count pacman !! k = Some n -> n = 0%nat)
  /\ (forall k n, behavior_count ghost !! k = Some n -> n = 0%nat).
Proof.
  assert (Hwf : forall actions first bs,
            well_formed (init_with actions first bs agent_id ally_ids
                                   enemy_ids)).
  { intros actions first bs. split; [reflexivity|]. split; [reflexivity|].
    intros b Hb. unfold init_with, reset_behavior_count. simpl.
    rewrite reset_loop_lookup.
    destruct (decide _) as [_|H]; [eauto|].
    exfalso. apply H. apply list_elem_of_fmap. eauto. }
  assert (Hzero : forall actions first bs k n,
            behavior_count (init_with actions first bs agent_id ally_ids
                                      enemy_ids) !! k = Some n -> n = 0%nat).
  { intros actions first bs k n. unfold init_with, reset_behavior_count.
    simpl. rewrite reset_loop_lookup.
    destruct (decide _); [congruence|]. rewrite lookup_empty. discriminate. }
  repeat split; try apply Hwf; eapply Hzero.
Qed.

(** *** One decision step, in full *)

Lemma choose_action_run
    (state : GameState) (action : Direction) (reward : Z)
    (L : list Direction) (test : bool) (w : World) :
  (test = false ->
   Qeq_bool (K (self w) + inject_Z (iteration state)) 0 = false) ->
  let a := self w in
  let core := consulted state reward test a in
  let b := (act core state (rng w)).1.1 in
  let a' :=
    mkBehaviorLearningAgent (agent_id a) (agent_actions a)
      (agent_features a) (behaviors a) (K a) (exploration_rate a)
      (act core state (rng w)).1.2 b (behavior_count a) test in
  let g' := (act core state (rng w)).2 in
  let calls' := calls_before_act state reward test w ++ [CallAct core state] in
  BehaviorLearningPacmanAgent_choose_action state action reward L test w
  = match behavior_count a !! behavior_str b with
    | None => (Raise (KeyError (behavior_str b)), mkWorld a' g' calls')
    | Some n =>
        let x := behavior_call b state L in
        let '(r, g'') :=
          (if py_in x L then (Return x, g')
           else if is_empty_list L then (Return STOP, g')
           else choice L g') in
        (r, mkWorld (set_behavior_count
                       (<[behavior_str b := (n + 1)%nat]> (behavior_count a))
                       a')
                    g'' calls')
    end.
Proof.
  intros Hdiv.
  unfold BehaviorLearningPacmanAgent_choose_action,
    BehaviorLearningPacmanAgent_enable_test_mode,
    BehaviorLearningPacmanAgent_enable_learn_mode,
    learning_learn, learning_act, py_div, bind, set_self, get_self, ret,
    raise, with_random, increment, consulted, calls_before_act, scheduled,
    switched.
  destruct w as [a g c]. destruct test; simpl in *.
  - destruct (act _ state g) as [[b l'] g'] eqn:Hact. simpl.
    destruct (behavior_count a !! behavior_str b); simpl; [|reflexivity].
    destruct (py_in _ L); [|destruct (is_empty_list L)]; simpl;
      reflexivity.
  - rewrite (Hdiv eq_refl). simpl.
    destruct (act _ state g) as [[b l'] g'] eqn:Hact. simpl.
    rewrite <- app_assoc. simpl.
    destruct (behavior_count a !! behavior_str b); simpl; [|reflexivity].
    destruct (py_in _ L); [|destruct (is_empty_list L)]; simpl;
      reflexivity.
Qed.

(** *** The usage counters *)



(** X17. In learning mode, a state whose iteration makes [K + iteration]
    zero stops [choose_action] with [ZeroDivisionError] before the core is
    consulted: no call is made and no draw is taken; only the mode switch
    has happened. *)
Theorem choose_action_zero_divisor
    (state : GameState) (action : Direction) (reward : Z)
    (L : list Direction) (w : World) :
  Qeq_bool (K (self w) + inject_Z (iteration state)) 0 = true ->
  BehaviorLearningPacmanAgent_choose_action state action reward L false w
  = (Raise (ZeroDivisionError "float division by zero"),
     mkWorld (set_learning (switched false (self w))
                (set_test_mode false (self w)))
             (rng w) (calls w)).
Proof.
  intros Hdiv.
  unfold BehaviorLearningPacmanAgent_choose_action,
    BehaviorLearningPacmanAgent_enable_learn_mode,
    py_div, bind, set_self, get_self, raise.
  simpl. rewrite Hdiv. reflexivity.
Qed.

(** *** Switching modes *)



(** *** The invariant of the learning agents *)

(** X19. With a core that keeps its action set and chooses from it, a
    well-formed agent in a state with a non-negative iteration always gets
    a direction from [choose_action], and is well-formed afterwards. *)
Theorem choose_action_keeps_well_formed
    (state : GameState) (action : Direction) (reward : Z)
    (L : list Direction) (test : bool) (w : World) :
  core_keeps_actions (behaviors (self w)) ->
  well_formed (self w) ->
  0 <= iteration state ->
  exists d w',
    BehaviorLearningPacmanAgent_choose_action state action reward L test w
      = (Return d, w')
    /\ well_formed (self w')
    /\ behaviors (self w') = behaviors (self w).
Proof.
  intros [Hlearn Hact] (HK & Hactions & Hcounters) Hn.
  rewrite choose_action_run
    by (intros _; apply schedule_divisor; assumption).
  cbv zeta.
  set (core := consulted state reward test (self w)).
  assert (Hcore : Learning.actions core = behaviors (self w)).
  { unfold core, consulted. destruct test; [exact Hactions|].
    apply Hlearn. exact Hactions. }
  destruct (Hact core state (rng w) Hcore) as [Hb Hcore'].
  destruct (Hcounters _ Hb) as [n Hc]. rewrite Hc.
  destruct (fallback_three_tier
              (behavior_call (act core state (rng w)).1.1 state L) L
              (act core state (rng w)).2) as (d & g2 & Hd & _).
  rewrite Hd. exists d; eexists. split; [reflexivity|].
  split; [|reflexivity].
  split; [exact HK|]. split; [exact Hcore'|]. simpl.
  intros b' Hb'. destruct (Hcounters b' Hb') as [n' Hn'].
  destruct (decide (behavior_str (act core state (rng w)).1.1
                    = behavior_str b')) as [Heq|Hne].
  - rewrite Heq, lookup_insert_eq. eauto.
  - rewrite lookup_insert_ne by exact Hne. eauto.
Qed.

(** *** The agents without a core *)

(** X20. Offered at least one legal action, both random agents return one
    of them and take exactly one draw. *)
Theorem random_agents_pick_a_legal_action
    (state : GameState) (action : Direction) (reward : Z)
    (L : list Direction) (explore : bool) (g : RandomState) :
  L <> [] ->
  exists d,
    RandomPacmanAgent_choose_action state action reward L explore g
      = (Return (Some d), mkRandom (draws g) (S (cursor g)))
    /\ RandomGhostAgent_choose_action state action reward L explore g
       = (Return (Some d), mkRandom (draws g) (S (cursor g)))
    /\ d ∈ L.
Proof.
  intros HL. destruct (choice_member L g HL) as (d & Hd & Hmem).
  exists d.
  unfold RandomPacmanAgent_choose_action, RandomGhostAgent_choose_action.
  destruct L; [congruence|].
  unfold len_positive; simpl is_empty_list; simpl negb.
  rewrite Hd. repeat split. exact Hmem.
Qed.

(** X21. The eater agent takes a draw from the generator only when the
    suggestion of its behavior is illegal while some action is legal;
    otherwise it leaves the generator as it found it. *)
Theorem eater_draws_only_when_needed
    (eater : EaterPacmanAgent) (state : GameState) (action : Direction)
    (reward : Z) (L : list Direction) (test : bool) (g : RandomState) :
  snd (EaterPacmanAgent_choose_action eater state action reward L test g)
  = if py_in (behavior_call (eat_behavior eater) state L) L
       || is_empty_list L
    then g
    else mkRandom (draws g) (S (cursor g)).
Proof.
  unfold EaterPacmanAgent_choose_action.
  destruct (py_in _ L); [reflexivity|]. destruct L as [|y L']; [reflexivity|].
  simpl orb. cbv iota.
  destruct (choice_member (y :: L') g) as (d & Hd & _); [discriminate|].
  simpl is_empty_list. cbv iota. rewrite Hd. reflexivity.
Qed.

End Learners.

(** *** The properties on the sample agents *)

Section Samples.
Import ControllerScenario.

Local Abbreviation pacman_choose_action :=
  (@BehaviorLearningPacmanAgent_choose_action sample_collaborators).
Local Abbreviation ghost_choose_action :=
  (@BehaviorLearningGhostAgent_choose_action sample_collaborators).



(** [K] is 1: iteration -1 makes the divisor 0. *)
Lemma choose_action_zero_divisor_sample :
  pacman_choose_action (-1) STOP 4 [NORTH; STOP] false pacman_learner
  = (Raise (ZeroDivisionError "float division by zero"),
     mkWorld (set_learning
                (@switched sample_collaborators false (self pacman_learner))
                (set_test_mode false (self pacman_learner)))
             (rng pacman_learner) (calls pacman_learner)).
Proof.
  apply (@choose_action_zero_divisor sample_collaborators (-1) STOP 4
           [NORTH; STOP] pacman_learner).
  reflexivity.
Defined.


Lemma sample_core_keeps_actions :
  @core_keeps_actions sample_collaborators [Eat; Flee; Seek; Pursue].
Proof.
  split.
  - intros core state b reward Hcore. exact Hcore.
  - intros core state g Hcore. simpl in Hcore |- *. unfold sample_act.
    rewrite Hcore. split; [left | reflexivity].
Qed.

Lemma pacman_learner_well_formed :
  @well_formed sample_collaborators (self pacman_learner).
Proof.
  split; [reflexivity|]. split; [reflexivity|].
  intros b _. apply pacman_learner_counts.
Qed.

Lemma choose_action_keeps_well_formed_sample :
  exists d w',
    pacman_choose_action 9 STOP 4 [NORTH; STOP] false pacman_learner
      = (Return d, w')
    /\ @well_formed sample_collaborators (self w')
    /\ behaviors (self w') = [Eat; Flee; Seek; Pursue].
Proof.
  apply (@choose_action_keeps_well_formed sample_collaborators 9 STOP 4
           [NORTH; STOP] false pacman_learner).
  - exact sample_core_keeps_actions.
  - exact pacman_learner_well_formed.
  - simpl. lia.
Defined.

(** A random agent offered [NORTH] and [STOP]. *)
Lemma random_agents_sample :
  exists d,
    @RandomPacmanAgent_choose_action sample_collaborators 9 STOP 4
      [NORTH; STOP] false Scenario.sample_random
      = (Return (Some d), mkRandom (draws Scenario.sample_random) 1)
    /\ @RandomGhostAgent_choose_action sample_collaborators 9 STOP 4
         [NORTH; STOP] false Scenario.sample_random
       = (Return (Some d), mkRandom (draws Scenario.sample_random) 1)
    /\ d ∈ [NORTH; STOP].
Proof.
  apply (@random_agents_pick_a_legal_action sample_collaborators 9 STOP 4
           [NORTH; STOP] false Scenario.sample_random).
  discriminate.
Defined.

End Samples.

End ControllerExtras.

(** ** Properties of the agents without a learning core *)

Module PlanningExtras.
Import Controller Planning Spec ControllerProofs.

Section RandomTwo.
Context {collaborators : Collaborators}.

(** [list.remove] on a list that holds the element. *)
Lemma py_remove_member (x : Direction) (L : list Direction) :
  py_in x L = true ->
  exists L',
    py_remove x L = Return L'
    /\ length L = S (length L')
    /\ (forall d, d ∈ L' -> d ∈ L)
    /\ (forall d, d ∈ L -> d = x \/ d ∈ L')
    /\ (NoDup L -> (x ∉ L') /\ NoDup L').
Proof.
  induction L as [|y rest IH]; intros Hin; [discriminate|].
  simpl. destruct (bool_decide (y = x)) eqn:Hy.
  - apply bool_decide_eq_true in Hy as ->. exists rest.
    split; [reflexivity|]. split; [reflexivity|].
    split; [intros d Hd; right; exact Hd|].
    split; [intros d Hd; apply elem_of_cons in Hd; tauto|].
    intros Hnd. apply NoDup_cons in Hnd. exact Hnd.
  - apply bool_decide_eq_false in Hy.
    assert (Hrest : py_in x rest = true).
    { apply py_in_true in Hin. apply py_in_true.
      apply elem_of_cons in Hin as [->|H]; [congruence | exact H]. }
    destruct (IH Hrest) as (L' & Hrun & Hlen & Hsub & Hsup & Hnd).
    rewrite Hrun. exists (y :: L'). split; [reflexivity|].
    split; [simpl; rewrite Hlen; reflexivity|].
    split; [|split].
    + intros d Hd. apply elem_of_cons in Hd as [->|Hd]; [left|].
      right. apply Hsub. exact Hd.
    + intros d Hd. apply elem_of_cons in Hd as [->|Hd].
      * right. left.
      * destruct (Hsup d Hd) as [->|Hd']; [left; reflexivity|].
        right. right. exact Hd'.
    + intros Hnodup. apply NoDup_cons in Hnodup as [Hy' Hnodup].
      destruct (Hnd Hnodup) as [Hx Hnd'].
      split.
      * intros Hx'. apply elem_of_cons in Hx' as [->|Hx']; [congruence|].
        contradiction.
      * apply NoDup_cons. split; [|exact Hnd'].
        intros Hy''. apply Hy'. apply Hsub. exact Hy''.
Qed.

(** The counting loop stops at the element in position [number - aux]. *)
Lemma scan_from_lookup (L : list Direction) :
  forall number aux : Z,
    aux <= number < aux + Z.of_nat (length L) ->
    scan_from number aux L = L !! Z.to_nat (number - aux)
    /\ is_Some (L !! Z.to_nat (number - aux)).
Proof.
  induction L as [|y rest IH]; intros number aux Hrange; simpl in *; [lia|].
  destruct (number =? aux) eqn:Heq.
  - apply Z.eqb_eq in Heq as ->. rewrite Z.sub_diag. simpl. eauto.
  - apply Z.eqb_neq in Heq.
    destruct (IH number (aux + 1)) as [Hscan Hsome]; [lia|].
    rewrite Hscan.
    replace (Z.to_nat (number - aux)) with (S (Z.to_nat (number - (aux + 1))))
      by lia.
    simpl. split; [reflexivity | exact Hsome].
Qed.

(** The number drawn at a junction, from the raw draw. *)
Lemma choice_of_numbers (g : RandomState) :
  choice [1; 2; 3; 4; 5] g
    = (Return (draws g (cursor g) mod 5 + 1),
       mkRandom (draws g) (S (cursor g)))
  /\ choice [1; 2; 3; 4; 5; 6] g
     = (Return (draws g (cursor g) mod 6 + 1),
        mkRandom (draws g) (S (cursor g))).
Proof.
  unfold choice, randbelow. simpl length. split.
  - pose proof (Z.mod_pos_bound (draws g (cursor g)) 5 eq_refl) as Hr.
    change (Z.of_nat 5) with 5.
    remember (draws g (cursor g) mod 5) as r eqn:Er. clear Er.
    assert (Hc : r = 0 \/ r = 1 \/ r = 2 \/ r = 3 \/ r = 4) by lia.
    destruct Hc as [->|[->|[->|[->| ->]]]]; reflexivity.
  - pose proof (Z.mod_pos_bound (draws g (cursor g)) 6 eq_refl) as Hr.
    change (Z.of_nat 6) with 6.
    remember (draws g (cursor g) mod 6) as r eqn:Er. clear Er.
    assert (Hc : r = 0 \/ r = 1 \/ r = 2 \/ r = 3 \/ r = 4 \/ r = 5) by lia.
    destruct Hc as [->|[->|[->|[->|[->| ->]]]]]; reflexivity.
Qed.

(** X22. [RandomPacmanAgentTwo.choose_action] never raises. The direction
    it returns, if any, is one of the legal actions it was given, and the
    list it leaves to its caller holds nothing that was not in it before. *)
Theorem random_two_returns_legal
    (state : GameState) (action : Direction) (reward : Z)
    (L : list Direction) (explore : bool) (g : RandomState) :
  exists v L' g',
    RandomPacmanAgentTwo_choose_action state action reward L explore g
      = (Return v, L', g')
    /\ (forall d, v = Some d -> d ∈ L)
    /\ (forall d, d ∈ L' -> d ∈ L).
Proof.
  unfold RandomPacmanAgentTwo_choose_action.
  destruct (bool_decide (action = STOP) || negb (py_in action L)) eqn:Hfirst.
  - assert (Hrem : exists L1,
              (if py_in STOP L then py_remove STOP L else Return L)
                = Return L1
              /\ forall d, d ∈ L1 -> d ∈ L).
    { destruct (py_in STOP L) eqn:Hstop; [|eauto].
      destruct (py_remove_member STOP L Hstop) as (L1 & Hrun & _ & Hsub & _).
      eauto. }
    destruct Hrem as (L1 & -> & Hsub).
    destruct L1 as [|y L1'].
    + exists None, [], g. split; [reflexivity|]. split; [discriminate|].
      exact Hsub.
    + destruct (choice_member (y :: L1') g) as (d & Hd & Hmem); [discriminate|].
      unfold len_positive. simpl is_empty_list. simpl negb. cbv iota.
      rewrite Hd. eexists; eexists; eexists. split; [reflexivity|].
      split; [|exact Hsub]. intros d' [= <-]. apply Hsub. exact Hmem.
  - apply orb_false_iff in Hfirst as [_ Hin].
    apply negb_false_iff in Hin. pose proof Hin as Hmem.
    apply py_in_true in Hmem.
    destruct (3 <? Z.of_nat (length L)) eqn:Hlen.
    + apply Z.ltb_lt in Hlen.
      destruct (choice_of_numbers g) as [H5 H6].
      assert (Hnum : exists number,
                (if Z.of_nat (length L) =? 4
                 then choice [1; 2; 3; 4; 5] g
                 else choice [1; 2; 3; 4; 5; 6] g)
                = (Return number, mkRandom (draws g) (S (cursor g)))
                /\ 1 <= number
                /\ number < Z.of_nat (length L) + 2).
      { destruct (Z.of_nat (length L) =? 4) eqn:H4.
        - apply Z.eqb_eq in H4. eexists. split; [exact H5|].
          pose proof (Z.mod_pos_bound (draws g (cursor g)) 5 eq_refl). lia.
        - apply Z.eqb_neq in H4. eexists. split; [exact H6|].
          pose proof (Z.mod_pos_bound (draws g (cursor g)) 6 eq_refl). lia. }
      destruct Hnum as (number & -> & Hlo & Hhi).
      destruct ((number =? 1) || (number =? 2)) eqn:Hkeep.
      * eexists; eexists; eexists. split; [reflexivity|].
        split; [intros d [= <-]; exact Hmem | auto].
      * apply orb_false_iff in Hkeep as [H1 H2].
        apply Z.eqb_neq in H1, H2.
        destruct (py_remove_member action L Hin)
          as (L1 & -> & Hlen1 & Hsub & _).
        destruct (scan_from_lookup L1 number 3) as [Hscan [d Hd]]; [lia|].
        rewrite Hscan, Hd. eexists; eexists; eexists.
        split; [reflexivity|]. split; [|exact Hsub].
        intros d' [= <-]. apply Hsub. apply list_elem_of_lookup. eauto.
    + eexists; eexists; eexists. split; [reflexivity|].
      split; [intros d [= <-]; exact Hmem | auto].
Qed.

(** X23. In a corridor the agent keeps going: when the last action is a
    legal move and at most three actions are legal, it is returned again,
    without a draw and without touching the list. *)
Theorem random_two_keeps_direction
    (state : GameState) (action : Direction) (reward : Z)
    (L : list Direction) (explore : bool) (g : RandomState) :
  action <> STOP ->
  action ∈ L ->
  (length L <= 3)%nat ->
  RandomPacmanAgentTwo_choose_action state action reward L explore g
  = (Return (Some action), L, g).
Proof.
  intros Hstop Hin Hlen. unfold RandomPacmanAgentTwo_choose_action.
  rewrite bool_decide_eq_false_2 by exact Hstop.
  apply py_in_true in Hin. rewrite Hin. simpl.
  assert (H3 : (3 <? Z.of_nat (length L)) = false) by (apply Z.ltb_ge; lia).
  rewrite H3. reflexivity.
Qed.

(** X24. When the last action was [STOP] or is not legal any more, the
    agent leaves [STOP] out: given legal actions without repetition, it
    never returns [STOP], it returns no direction at all exactly when no
    move is legal, and the caller's list has lost its [STOP]. *)
Theorem random_two_leaves_stop
    (state : GameState) (action : Direction) (reward : Z)
    (L : list Direction) (explore : bool) (g : RandomState) :
  action = STOP \/ action ∉ L ->
  NoDup L ->
  exists v L' g',
    RandomPacmanAgentTwo_choose_action state action reward L explore g
      = (Return v, L', g')
    /\ v <> Some STOP
    /\ (v = None <-> forall d, d ∈ L -> d = STOP)
    /\ (forall d, d ∈ L' <-> d ∈ L /\ d <> STOP).
Proof.
  intros Hfirst Hnd. unfold RandomPacmanAgentTwo_choose_action.
  assert (Hcond : bool_decide (action = STOP) || negb (py_in action L) = true).
  { destruct Hfirst as [->|Hout].
    - reflexivity.
    - apply py_in_false in Hout. rewrite Hout. apply orb_true_r. }
  rewrite Hcond.
  assert (Hrem : exists L1,
            (if py_in STOP L then py_remove STOP L else Return L) = Return L1
            /\ forall d, d ∈ L1 <-> d ∈ L /\ d <> STOP).
  { destruct (py_in STOP L) eqn:Hstop.
    - destruct (py_remove_member STOP L Hstop)
        as (L1 & Hrun & _ & Hsub & Hsup & Hno).
      destruct (Hno Hnd) as [Hno' _].
      exists L1. split; [exact Hrun|]. intros d. split.
      + intros Hd. split; [apply Hsub; exact Hd|]. intros ->. contradiction.
      + intros [Hd Hne]. destruct (Hsup d Hd); [contradiction | assumption].
    - apply py_in_false in Hstop. exists L. split; [reflexivity|].
      intros d. split; [|tauto]. intros Hd. split; [exact Hd|].
      intros ->. contradiction. }
  destruct Hrem as (L1 & -> & HL1).
  destruct L1 as [|y L1'].
  - exists None, [], g. split; [reflexivity|]. split; [discriminate|].
    split; [|exact HL1]. split; [|reflexivity].
    intros _ d Hd. destruct (decide (d = STOP)) as [->|Hne]; [reflexivity|].
    exfalso. assert (Hd' : d ∈ []) by (apply HL1; auto). inversion Hd'.
  - destruct (choice_member (y :: L1') g) as (d & Hd & Hmem); [discriminate|].
    unfold len_positive. simpl is_empty_list. simpl negb. cbv iota.
    rewrite Hd. eexists; eexists; eexists. split; [reflexivity|].
    apply HL1 in Hmem as [HdL Hdne].
    split; [intros [= ->]; congruence|]. split; [|exact HL1].
    split; [discriminate|]. intros Hall. exfalso. apply Hdne, Hall, HdL.
Qed.

(** X25. At a junction, where the last action is a legal move among more
    than three actions, one draw decides: of the five numbers drawn from
    when four actions are legal (six otherwise), the first two keep the last
    action and leave the list alone, and each of the others takes the
    action at its own place among the remaining ones, which are what the
    caller's list is left with. The loop always finds that place, so no
    second draw is ever taken. *)
Theorem random_two_junction
    (state : GameState) (action : Direction) (reward : Z)
    (L : list Direction) (explore : bool) (g : RandomState) :
  action <> STOP ->
  action ∈ L ->
  (3 < length L)%nat ->
  let r := draws g (cursor g) mod (if (length L =? 4)%nat then 5 else 6) in
  let g' := mkRandom (draws g) (S (cursor g)) in
  exists L',
    py_remove action L = Return L'
    /\ length L = S (length L')
    /\ RandomPacmanAgentTwo_choose_action state action reward L explore g
       = (if r <? 2 then (Return (Some action), L, g')
          else (Return (L' !! Z.to_nat (r - 2)), L', g'))
    /\ (2 <= r -> is_Some (L' !! Z.to_nat (r - 2))).
Proof.
  intros Hstop Hin Hlen r g'. apply py_in_true in Hin.
  destruct (py_remove_member action L Hin) as (L' & Hrem & HlenL & _).
  exists L'. split; [exact Hrem|]. split; [exact HlenL|].
  unfold RandomPacmanAgentTwo_choose_action.
  rewrite bool_decide_eq_false_2 by exact Hstop. rewrite Hin. simpl orb.
  cbv iota.
  assert (H3 : (3 <? Z.of_nat (length L)) = true) by (apply Z.ltb_lt; lia).
  rewrite H3. destruct (choice_of_numbers g) as [H5 H6].
  assert (Hnum : (if Z.of_nat (length L) =? 4
                  then choice [1; 2; 3; 4; 5] g
                  else choice [1; 2; 3; 4; 5; 6] g)
                 = (Return (r + 1), g')
                 /\ 0 <= r /\ r + 1 < Z.of_nat (length L) + 2).
  { unfold r. destruct (Nat.eqb_spec (length L) 4) as [H4|H4].
    - rewrite H4. simpl. split; [exact H5|].
      pose proof (Z.mod_pos_bound (draws g (cursor g)) 5 eq_refl). lia.
    - assert (H4' : (Z.of_nat (length L) =? 4) = false)
        by (apply Z.eqb_neq; lia).
      rewrite H4'. split; [exact H6|].
      pose proof (Z.mod_pos_bound (draws g (cursor g)) 6 eq_refl). lia. }
  destruct Hnum as (-> & Hlo & Hhi).
  split.
  - destruct (r <? 2) eqn:Hr.
    + apply Z.ltb_lt in Hr.
      assert (Hk : ((r + 1 =? 1) || (r + 1 =? 2)) = true).
      { apply orb_true_iff. rewrite !Z.eqb_eq. lia. }
      rewrite Hk. reflexivity.
    + apply Z.ltb_ge in Hr.
      assert (Hk : ((r + 1 =? 1) || (r + 1 =? 2)) = false).
      { apply orb_false_iff. rewrite !Z.eqb_neq. lia. }
      rewrite Hk, Hrem.
      destruct (scan_from_lookup L' (r + 1) 3) as [Hscan [d Hd]]; [lia|].
      replace (r + 1 - 3) with (r - 2) in Hscan, Hd by lia.
      rewrite Hscan, Hd. reflexivity.
  - intros Hr.
    destruct (scan_from_lookup L' (r + 1) 3) as [_ Hsome]; [lia|].
    replace (r + 1 - 3) with (r - 2) in Hsome by lia. exact Hsome.
Qed.

End RandomTwo.

Section Bfs.
Context {collaborators : Collaborators}.
Variable get_position : GameState -> Z * Z.
Variable is_valid_position : GameState -> Z * Z -> bool.
Variable food_at : GameState -> Z -> Z -> Result bool.
Variable calculate_distance : GameState -> Z * Z -> Z * Z -> Q.

Local Abbreviation bfs_choose_action :=
  (BFS_PacmanAgent_choose_action get_position is_valid_position food_at
     calculate_distance).
Local Abbreviation bfs_loop := (search_loop is_valid_position food_at).
Local Abbreviation bfs_visit_all := (visit_all is_valid_position food_at).
Local Abbreviation bfs_visit := (visit is_valid_position food_at).

(** No distance is below [None]: the loop over the legal actions keeps the
    [None] it starts with. *)
Lemma best_loop_None (state : GameState) (init closest : Z * Z)
    (L : list Direction) :
  best_loop calculate_distance state init closest L None None = None.
Proof. induction L as [|a rest IH]; [reflexivity | exact IH]. Qed.

Lemma bfs_result_shape
    (fuel : nat) (state : GameState) (action : Direction) (reward : Z)
    (L : list Direction) (explore : bool) (v : option Direction) :
  bfs_choose_action fuel state action reward L explore = Some (Return v) ->
  (v = Some STOP \/ (v = None /\ L <> []))
  /\ (L = [] -> v = Some STOP).
Proof.
  unfold BFS_PacmanAgent_choose_action.
  destruct (search_loop _ _ fuel state _) as [[s|e]|]; try discriminate.
  destruct (closest_food s) as [closest|].
  - destruct L as [|a rest].
    + intros [= <-]. split; [left; reflexivity | reflexivity].
    + unfold len_positive. simpl is_empty_list. simpl negb. cbv iota.
      rewrite best_loop_None.
      intros [= <-]. split; [right; split; [reflexivity | discriminate]|].
      discriminate.
  - intros [= <-]. split; [left; reflexivity | reflexivity].
Qed.

(** X26. Whenever [BFS_PacmanAgent.choose_action] returns, it returns [STOP]
    or no direction at all, never a move: [STOP] when the search found no
    food or nothing is legal, and [None] when it found food while something
    is legal, because no distance compares below the initial [None]. *)
Theorem bfs_never_moves
    (fuel : nat) (state : GameState) (action : Direction) (reward : Z)
    (L : list Direction) (explore : bool) (v : option Direction) :
  bfs_choose_action fuel state action reward L explore = Some (Return v) ->
  v <> Some NORTH /\ v <> Some SOUTH /\ v <> Some EAST /\ v <> Some WEST
  /\ (L = [] -> v = Some STOP).
Proof.
  intros Hrun.
  destruct (bfs_result_shape fuel state action reward L explore v Hrun)
    as [[->|[-> _]] Hempty]; repeat split; try discriminate; exact Hempty.
Qed.

(** *** The search ends on a finite map *)

Lemma position_in_true (p : Z * Z) (l : list (Z * Z)) :
  position_in p l = true <-> p ∈ l.
Proof.
  unfold position_in. rewrite existsb_exists, list_elem_of_In. split.
  - intros (y & Hy & Hb). apply bool_decide_eq_true in Hb. congruence.
  - intros Hx. exists p. split; [exact Hx|]. apply bool_decide_eq_true.
    reflexivity.
Qed.

Section Bounded.
Variable state : GameState.
Variable init : Z * Z.
Variable cells : list (Z * Z).
Hypothesis cells_cover :
  forall p, is_valid_position state p = true -> p ∈ cells.

Lemma visit_tracked (cur ij : Z * Z) (s s' : Search) :
  tracked init cells s ->
  bfs_visit state cur ij s = Return s' ->
  tracked init cells s'
  /\ (length (q s') + length (visited s)
      = length (q s) + length (visited s'))%nat.
Proof.
  intros [Hnd Hsub]. unfold visit.
  set (p := (cur.1 + ij.1, cur.2 + ij.2)).
  set (s1 := if is_valid_position state p && negb (position_in p (visited s))
             then mkSearch (q s ++ [p]) (visited s ++ [p]) (closest_food s)
             else s).
  assert (H1 : tracked init cells s1
               /\ (length (q s1) + length (visited s)
                   = length (q s) + length (visited s1))%nat).
  { unfold s1.
    destruct (is_valid_position state p) eqn:Hv;
      [destruct (position_in p (visited s)) eqn:Hp|]; simpl;
      try (split; [split; assumption | reflexivity]).
    split; [split|].
    - apply NoDup_app. split; [exact Hnd|]. split; [|apply NoDup_singleton].
      intros x Hx Hx'. apply list_elem_of_singleton in Hx' as ->.
      apply position_in_true in Hx. congruence.
    - intros x Hx. apply elem_of_app in Hx as [Hx|Hx]; [auto|].
      apply list_elem_of_singleton in Hx as ->. right. auto.
    - rewrite !length_app. simpl. lia. }
  destruct H1 as [Ht Hl].
  destruct (food_at state p.1 p.2) as [is_food|e]; [|discriminate].
  intros [= <-].
  destruct (is_food && negb (bool_decide (is_Some (closest_food s1))));
    [|split; assumption].
  simpl. split; [exact Ht | exact Hl].
Qed.

Lemma visit_all_tracked (cur : Z * Z) (ijs : list (Z * Z)) :
  forall s s',
    tracked init cells s ->
    bfs_visit_all state cur ijs s = Return s' ->
    tracked init cells s'
    /\ (length (q s') + length (visited s)
        = length (q s) + length (visited s'))%nat.
Proof.
  induction ijs as [|ij rest IH]; intros s s' Ht; simpl.
  - intros [= <-]. split; [exact Ht | reflexivity].
  - destruct (visit _ _ state cur ij s) as [s1|e] eqn:Hv; [|discriminate].
    destruct (visit_tracked cur ij s s1 Ht Hv) as [Ht1 Hl1].
    intros Hrest. destruct (IH s1 s' Ht1 Hrest) as [Ht' Hl'].
    split; [exact Ht' | lia].
Qed.

Lemma tracked_length (s : Search) :
  tracked init cells s -> (length (visited s) <= S (length cells))%nat.
Proof.
  intros [Hnd Hsub].
  change (S (length cells)) with (length (init :: cells)).
  apply submseteq_length, NoDup_submseteq; assumption.
Qed.

Lemma search_loop_ends (fuel : nat) :
  forall s,
    tracked init cells s ->
    (length (q s) + S (length cells) < fuel + length (visited s))%nat ->
    exists r, bfs_loop fuel state s = Some r.
Proof.
  induction fuel as [|fuel IH]; intros s Ht Hfuel.
  - pose proof (tracked_length s Ht). lia.
  - cbn [search_loop]. destruct (q s) as [|cur rest] eqn:Hq; [eauto|].
    set (s1 := mkSearch rest (visited s) (closest_food s)).
    assert (Ht1 : tracked init cells s1) by exact Ht.
    destruct (bfs_visit_all state cur offsets s1) as [s'|e] eqn:Hv; [|eauto].
    destruct (visit_all_tracked cur offsets s1 s' Ht1 Hv) as [Ht' Hl'].
    apply IH; [exact Ht'|]. simpl in Hl', Hfuel. lia.
Qed.

End Bounded.

(** X27. On a map whose valid positions all lie in a finite list of cells,
    the search ends within as many rounds as there are cells plus two, so
    that [choose_action] gives its result: [STOP], or no direction when
    food was found and something is legal, or the exception that the food
    map raised. *)
Theorem bfs_ends_on_a_finite_map
    (cells : list (Z * Z)) (fuel : nat) (state : GameState)
    (action : Direction) (reward : Z) (L : list Direction) (explore : bool) :
  (forall p, is_valid_position state p = true -> p ∈ cells) ->
  (length cells + 2 <= fuel)%nat ->
  exists r,
    bfs_choose_action fuel state action reward L explore = Some r
    /\ match r with
       | Return v => v = Some STOP \/ (v = None /\ L <> [])
       | Raise e => True
       end.
Proof.
  intros Hcover Hfuel.
  assert (Hends : exists r,
            bfs_loop fuel state
              (mkSearch [get_position state] [get_position state] None)
            = Some r).
  { apply (search_loop_ends state (get_position state) cells Hcover).
    - split; [apply NoDup_singleton|].
      intros p Hp. apply list_elem_of_singleton in Hp as ->. left.
    - simpl. lia. }
  destruct Hends as (r & Hr).
  assert (Hsome : exists r',
            bfs_choose_action fuel state action reward L explore = Some r').
  { unfold BFS_PacmanAgent_choose_action. rewrite Hr.
    destruct r as [s|e]; [|eauto].
    destruct (closest_food s); [|eauto].
    destruct (len_positive L); eauto. }
  destruct Hsome as (r' & Hr'). exists r'. split; [exact Hr'|].
  destruct r' as [v|e]; [|exact I].
  apply (bfs_result_shape fuel state action reward L explore v Hr').
Qed.

(** *** What the search finds *)

Lemma visit_food (state : GameState) (cur ij : Z * Z) (s s' : Search) :
  bfs_visit state cur ij s = Return s' ->
  (is_Some (closest_food s) -> closest_food s' = closest_food s)
  /\ (food_at state (cur.1 + ij.1) (cur.2 + ij.2) = Return true ->
      is_Some (closest_food s'))
  /\ (food_at state (cur.1 + ij.1) (cur.2 + ij.2) = Return false ->
      closest_food s' = closest_food s).
Proof.
  unfold visit. simpl.
  destruct (is_valid_position state _ && _); simpl;
    (destruct (food_at state _ _) as [is_food|e]; [|discriminate]);
    intros [= <-];
    destruct (closest_food s) as [c|] eqn:Hc; destruct is_food; simpl;
    rewrite ?Hc; repeat split; intros H; try discriminate; eauto;
    destruct H; discriminate.
Qed.

Lemma visit_all_food (state : GameState) (cur : Z * Z)
    (ijs : list (Z * Z)) :
  forall s s',
    bfs_visit_all state cur ijs s = Return s' ->
    (is_Some (closest_food s) -> is_Some (closest_food s'))
    /\ ((exists ij, ij ∈ ijs
           /\ food_at state (cur.1 + ij.1) (cur.2 + ij.2) = Return true) ->
        is_Some (closest_food s'))
    /\ ((forall a b, food_at state a b = Return false) ->
        closest_food s' = closest_food s).
Proof.
  induction ijs as [|ij rest IH]; intros s s'; simpl.
  - intros [= <-]. split; [auto|]. split; [|reflexivity].
    intros (ij & Hij & _). inversion Hij.
  - destruct (visit _ _ state cur ij s) as [s1|e] eqn:Hv; [|discriminate].
    destruct (visit_food state cur ij s s1 Hv) as (Hkeep & Hfind & Hnone).
    intros Hrest. destruct (IH s1 s' Hrest) as (Hkeep' & Hfind' & Hnone').
    split; [|split].
    + intros Hs. apply Hkeep'. rewrite Hkeep by exact Hs. exact Hs.
    + intros (ij' & Hij' & Hfood).
      apply elem_of_cons in Hij' as [->|Hij'].
      * apply Hkeep', Hfind, Hfood.
      * apply Hfind'. eauto.
    + intros Hno. rewrite Hnone' by exact Hno. apply Hnone, Hno.
Qed.

Lemma visit_all_returns (state : GameState) (cur : Z * Z)
    (ijs : list (Z * Z)) :
  (forall a b, exists f, food_at state a b = Return f) ->
  forall s, exists s', bfs_visit_all state cur ijs s = Return s'.
Proof.
  intros Htotal. induction ijs as [|ij rest IH]; intros s; simpl; [eauto|].
  unfold visit at 1. simpl.
  destruct (Htotal (cur.1 + ij.1) (cur.2 + ij.2)) as [f ->]. apply IH.
Qed.

Lemma search_loop_food (state : GameState) (fuel : nat) :
  forall s s',
    bfs_loop fuel state s = Some (Return s') ->
    (is_Some (closest_food s) -> is_Some (closest_food s'))
    /\ ((forall a b, food_at state a b = Return false) ->
        closest_food s' = closest_food s).
Proof.
  induction fuel as [|fuel IH]; intros s s'; cbn [search_loop];
    [discriminate|].
  destruct (q s) as [|cur rest]; [intros [= <-]; auto|].
  set (s1 := mkSearch rest (visited s) (closest_food s)).
  destruct (bfs_visit_all state cur offsets s1) as [s2|e] eqn:Hv;
    [|discriminate].
  destruct (visit_all_food state cur offsets s1 s2 Hv)
    as (Hkeep & _ & Hnone).
  intros Hrest. destruct (IH s2 s' Hrest) as [Hkeep' Hnone'].
  split.
  - intros Hs. apply Hkeep', Hkeep, Hs.
  - intros Hno. rewrite Hnone' by exact Hno. apply Hnone, Hno.
Qed.

Lemma search_loop_returns (state : GameState) (fuel : nat) :
  (forall a b, exists f, food_at state a b = Return f) ->
  forall s r, bfs_loop fuel state s = Some r -> exists s', r = Return s'.
Proof.
  intros Htotal. induction fuel as [|fuel IH]; intros s r;
    cbn [search_loop]; [discriminate|].
  destruct (q s) as [|cur rest]; [intros [= <-]; eauto|].
  destruct (visit_all_returns state cur offsets Htotal
              (mkSearch rest (visited s) (closest_food s))) as [s2 ->].
  apply IH.
Qed.

(** X28. On a finite map whose food map never raises, an agent that stands
    on food and has a legal action gets no direction at all from
    [choose_action]. *)
Theorem bfs_standing_on_food
    (cells : list (Z * Z)) (fuel : nat) (state : GameState)
    (action : Direction) (reward : Z) (L : list Direction) (explore : bool) :
  (forall p, is_valid_position state p = true -> p ∈ cells) ->
  (length cells + 2 <= fuel)%nat ->
  (forall a b, exists f, food_at state a b = Return f) ->
  food_at state (get_position state).1 (get_position state).2 = Return true ->
  L <> [] ->
  bfs_choose_action fuel state action reward L explore = Some (Return None).
Proof.
  intros Hcover Hfuel Htotal Hfood HL.
  set (init := get_position state).
  set (s0 := mkSearch [init] [init] None).
  destruct (search_loop_ends state init cells Hcover fuel s0) as (r & Hr).
  { split; [apply NoDup_singleton|].
    intros p Hp. apply list_elem_of_singleton in Hp as ->. left. }
  { simpl. lia. }
  destruct (search_loop_returns state fuel Htotal s0 r Hr) as (s' & ->).
  assert (Hfound : is_Some (closest_food s')).
  { destruct fuel as [|fuel']; [discriminate|]. cbn [search_loop] in Hr.
    simpl q in Hr. cbv iota in Hr.
    destruct (visit_all_returns state init offsets Htotal
                (mkSearch [] (visited s0) (closest_food s0))) as [s2 Hv].
    rewrite Hv in Hr.
    destruct (visit_all_food state init offsets _ s2 Hv) as (_ & Hfind & _).
    destruct (search_loop_food state fuel' s2 s' Hr) as [Hkeep _].
    apply Hkeep, Hfind. exists (0, 0). split.
    - unfold offsets. do 4 right. left.
    - simpl. rewrite !Z.add_0_r. exact Hfood. }
  unfold BFS_PacmanAgent_choose_action. fold init. fold s0. rewrite Hr.
  destruct Hfound as [c ->].
  destruct L as [|a rest]; [congruence|].
  unfold len_positive. simpl is_empty_list. simpl negb. cbv iota.
  rewrite best_loop_None. reflexivity.
Qed.


End Bfs.

(** *** The properties on the sample agents *)

Section Samples.
Import ControllerScenario.

Local Abbreviation random_two :=
  (@RandomPacmanAgentTwo_choose_action sample_collaborators).
Local Abbreviation sample_bfs :=
  (@BFS_PacmanAgent_choose_action sample_collaborators sample_position
     sample_valid sample_food sample_distance).

(** A corridor: the agent came [NORTH] and can go on or back. *)
Lemma random_two_corridor_sample :
  random_two 9 NORTH 4 [NORTH; SOUTH] false Scenario.sample_random
  = (Return (Some NORTH), [NORTH; SOUTH], Scenario.sample_random).
Proof.
  apply (@random_two_keeps_direction sample_collaborators 9 NORTH 4
           [NORTH; SOUTH] false Scenario.sample_random).
  - discriminate.
  - left.
  - simpl. lia.
Defined.

(** After a stop, with [NORTH] and [STOP] on offer. *)
Lemma random_two_after_stop_sample :
  exists v L' g',
    random_two 9 STOP 4 [NORTH; STOP] false Scenario.sample_random
      = (Return v, L', g')
    /\ v <> Some STOP
    /\ (v = None <-> forall d, d ∈ [NORTH; STOP] -> d = STOP)
    /\ (forall d, d ∈ L' <-> d ∈ [NORTH; STOP] /\ d <> STOP).
Proof.
  apply (@random_two_leaves_stop sample_collaborators 9 STOP 4
           [NORTH; STOP] false Scenario.sample_random).
  - left. reflexivity.
  - apply (bool_decide_unpack _). vm_compute. exact I.
Defined.

(** A crossing reached going [NORTH]; the raw draw is 12, so the number
    drawn is 3 and the first of the other actions is taken. *)
Lemma random_two_junction_sample :
  let g := mkRandom (draws Scenario.sample_random) 1 in
  let r := draws g (cursor g) mod 5 in
  let g' := mkRandom (draws g) 2 in
  exists L',
    py_remove NORTH [NORTH; SOUTH; EAST; WEST] = Return L'
    /\ length [NORTH; SOUTH; EAST; WEST] = S (length L')
    /\ random_two 9 NORTH 4 [NORTH; SOUTH; EAST; WEST] false g
       = (if r <? 2
          then (Return (Some NORTH), [NORTH; SOUTH; EAST; WEST], g')
          else (Return (L' !! Z.to_nat (r - 2)), L', g'))
    /\ (2 <= r -> is_Some (L' !! Z.to_nat (r - 2))).
Proof.
  intros g r g'.
  destruct (@random_two_junction sample_collaborators 9 NORTH 4
              [NORTH; SOUTH; EAST; WEST] false g) as (L' & H1 & H2 & H3 & H4).
  - discriminate.
  - left.
  - simpl. lia.
  - exists L'. repeat split; assumption.
Defined.

Lemma sample_cells_cover (state : Z) (p : Z * Z) :
  sample_valid state p = true -> p ∈ sample_cells.
Proof.
  destruct p as [a b]. unfold sample_valid. simpl.
  rewrite !andb_true_iff, !Z.leb_le, !Z.ltb_lt. intros [[[Ha Ha'] Hb] Hb'].
  assert (Hc : (a = 0 \/ a = 1) /\ (b = 0 \/ b = 1)) by lia.
  unfold sample_cells. destruct Hc as [[->| ->] [->| ->]].
  - left.
  - right. left.
  - do 2 right. left.
  - do 3 right. left.
Qed.

(** Standing on food with [NORTH] legal: no direction comes back. *)
Lemma bfs_never_moves_sample :
  sample_bfs 6 9 STOP 4 [NORTH] false = Some (Return None)
  /\ (None <> Some NORTH /\ None <> Some SOUTH /\ None <> Some EAST
      /\ None <> Some WEST
      /\ ([NORTH] = [] -> @None Direction = Some STOP)).
Proof.
  split; [vm_compute; reflexivity|].
  apply (@bfs_never_moves sample_collaborators sample_position sample_valid
           sample_food sample_distance 6 9 STOP 4 [NORTH] false None).
  vm_compute. reflexivity.
Defined.

Lemma bfs_ends_sample :
  exists r,
    sample_bfs 6 9 STOP 4 [NORTH] false = Some r
    /\ match r with
       | Return v => v = Some STOP \/ (v = None /\ [NORTH] <> [])
       | Raise e => True
       end.
Proof.
  apply (@bfs_ends_on_a_finite_map sample_collaborators sample_position
           sample_valid sample_food sample_distance sample_cells 6 9 STOP 4
           [NORTH] false).
  - apply sample_cells_cover.
  - simpl. lia.
Defined.

Lemma bfs_standing_on_food_sample :
  sample_bfs 6 9 STOP 4 [NORTH] false = Some (Return None).
Proof.
  apply (@bfs_standing_on_food sample_collaborators sample_position
           sample_valid sample_food sample_distance sample_cells 6 9 STOP 4
           [NORTH] false).
  - apply sample_cells_cover.
  - simpl. lia.
  - intros a b. eexists. reflexivity.
  - reflexivity.
  - discriminate.
Defined.


End Samples.

End PlanningExtras.
